(** * vmanager.py: session waiting, run statistics and the JUnit report

    A shallow embedding of [src/vmanager/vmanager.py]:
    - the values the program handles are the values Python's [json.loads]
      produces ([None], booleans, integers, floats, strings, lists and
      objects), with the conversions the program applies to them
      ([int], [str], truth value, [== 0], [str.strip], [str.replace]);
    - [SessionWaiter] is a record threaded through the polling loop; the
      outside world (clock readings and HTTP exchanges) is a script the
      loop consumes, and the loop records the sleeps and fetches it makes;
    - exceptions are values of [result]; [fail], which ends the process
      with [sys.exit(1)], is the outcome [Exited].
    Logging ([log], [warn]) changes nothing the program computes and is
    left out. *)

From Stdlib Require Import ZArith QArith String Ascii List Lia.
From stdpp Require Import gmap strings list pretty.

Open Scope string_scope.

Set Warnings "-register-all".

(** ** Python values *)

(** A float is finite (a rational: every finite double is one), an
    infinity or a NaN. [json.loads] yields an infinity for [Infinity] and
    for a literal out of the double range, such as [1e999]. *)
Inductive pyfloat : Type :=
| FFinite (q : Q)
| FInf (negative : bool)
| FNaN.

(** A dict keeps its items in insertion order, as Python's does. *)
Inductive pyval : Type :=
| PNone
| PBool (b : bool)
| PInt (z : Z)
| PFloat (f : pyfloat)
| PStr (s : string)
| PList (items : list pyval)
| PDict (items : list (string * pyval)).

Abbreviation pydict := (list (string * pyval)).

(** The exceptions the modelled code can raise. *)
Inductive exn : Type :=
| ValueError
| TypeError
| OverflowError
| AttributeError.

Inductive result (A : Type) : Type :=
| Ok (a : A)
| Raise (e : exn).

Arguments Ok {A} a.
Arguments Raise {A} e.

#[global] Instance result_bind : MBind result :=
  λ A B f m, match m with Ok a => f a | Raise e => Raise e end.

#[global] Instance result_ret : MRet result := λ A a, Ok a.

#[global] Instance exn_eq_dec : EqDecision exn.
Proof. solve_decision. Defined.

(** ** Dictionaries *)

Fixpoint dict_lookup {V : Type} (d : list (string * V)) (k : string) : option V :=
  match d with
  | [] => None
  | (k', v) :: rest => if String.eqb k' k then Some v else dict_lookup rest k
  end.

(** [d.get(k, dflt)] *)
Definition dict_get {V : Type} (d : list (string * V)) (k : string) (dflt : V) : V :=
  match dict_lookup d k with
  | Some v => v
  | None => dflt
  end.

(** [d[k] = v]: an existing key keeps its place, a new one goes last. *)
Fixpoint dict_set {V : Type} (d : list (string * V)) (k : string) (v : V)
  : list (string * V) :=
  match d with
  | [] => [(k, v)]
  | (k', v') :: rest =>
      if String.eqb k' k then (k, v) :: rest else (k', v') :: dict_set rest k v
  end.

(** [d.values()] *)
Definition dict_values {V : Type} (d : list (string * V)) : list V := map snd d.

(** ** Truth value and comparisons *)

(** [bool(v)], as [not v] and [if v] use it. *)
Definition py_truthy (v : pyval) : bool :=
  match v with
  | PNone => false
  | PBool b => b
  | PInt z => negb (z =? 0)%Z
  | PFloat (FFinite q) => negb (Qnum q =? 0)%Z
  | PFloat _ => true
  | PStr s => negb (String.eqb s EmptyString)
  | PList items => match items with [] => false | _ => true end
  | PDict items => match items with [] => false | _ => true end
  end.

(** [v == 0] *)
Definition py_eq_zero (v : pyval) : bool :=
  match v with
  | PBool b => negb b
  | PInt z => (z =? 0)%Z
  | PFloat (FFinite q) => (Qnum q =? 0)%Z
  | _ => false
  end.

(** [v == lit] for a string literal [lit]. *)
Definition py_eq_str (v : pyval) (lit : string) : bool :=
  match v with
  | PStr s => String.eqb s lit
  | _ => false
  end.

(** ** Strings *)

Definition dquote : string := String "034"%char EmptyString.
Definition nl : string := String "010"%char EmptyString.

(** [str.isspace] on one character, for code points below 256. *)
Definition py_isspace (c : ascii) : bool :=
  let n := N_of_ascii c in
  ((9 <=? n) && (n <=? 13) || (28 <=? n) && (n <=? 32)
   || (n =? 133) || (n =? 160))%N.

Fixpoint lstrip (s : string) : string :=
  match s with
  | EmptyString => EmptyString
  | String c rest => if py_isspace c then lstrip rest else s
  end.

Definition rstrip (s : string) : string := String.rev (lstrip (String.rev s)).

(** [s.strip()] *)
Definition strip (s : string) : string := rstrip (lstrip s).

(** [c in s] for a one-character [c]. *)
Fixpoint contains_char (c : ascii) (s : string) : bool :=
  match s with
  | EmptyString => false
  | String c' rest => Ascii.eqb c' c || contains_char c rest
  end.

(** [s.replace(old, new)] for a non-empty [old]: occurrences are taken
    from the left and do not overlap; [skip] counts the characters of a
    matched occurrence still to be dropped. *)
Fixpoint replace_from (old new : string) (skip : nat) (s : string) : string :=
  match s with
  | EmptyString => EmptyString
  | String c rest =>
      match skip with
      | S k => replace_from old new k rest
      | O =>
          if String.prefix old s
          then new +:+ replace_from old new (String.length old - 1) rest
          else String c (replace_from old new 0 rest)
      end
  end.

(** With an empty [old], Python puts [new] before every character and at
    the end. *)
Fixpoint intersperse_all (new : string) (s : string) : string :=
  match s with
  | EmptyString => new
  | String c rest => new +:+ String c (intersperse_all new rest)
  end.

Definition replace (old new s : string) : string :=
  match old with
  | EmptyString => intersperse_all new s
  | _ => replace_from old new 0 s
  end.

(** [sep.join(parts)] *)
Fixpoint join (sep : string) (parts : list string) : string :=
  match parts with
  | [] => EmptyString
  | [p] => p
  | p :: rest => p +:+ sep +:+ join sep rest
  end.

(** ** [int(v)] *)

Definition is_digit (c : ascii) : bool :=
  let n := N_of_ascii c in ((48 <=? n) && (n <=? 57))%N.

Definition digit_value (c : ascii) : Z := Z.of_N (N_of_ascii c) - 48.

(** Decimal digits, with single underscores allowed between two digits. *)
Fixpoint scan_digits (s : string) (acc : Z) (after_digit : bool) : option Z :=
  match s with
  | EmptyString => if after_digit then Some acc else None
  | String c rest =>
      if is_digit c then scan_digits rest (10 * acc + digit_value c) true
      else if Ascii.eqb c "_"
           then (if after_digit then scan_digits rest acc false else None)
           else None
  end.

Fixpoint count_digits (s : string) : N :=
  match s with
  | EmptyString => 0
  | String c rest => ((if is_digit c then 1 else 0) + count_digits rest)%N
  end.

(** CPython refuses to convert a string of more digits than this. *)
Definition int_max_str_digits : N := 4300.

(** The white space [int()] skips around a literal. It is not the set of
    [str.strip]: an ASCII character is skipped when the C locale counts it
    as a space, which leaves out the separators U+001C to U+001F; of the
    other characters of Latin-1 the two Unicode spaces U+0085 and U+00A0
    are read as a blank. *)
Definition int_isspace (c : ascii) : bool :=
  let n := N_of_ascii c in
  ((9 <=? n) && (n <=? 13) || (n =? 32) || (n =? 133) || (n =? 160))%N.

Fixpoint skip_spaces (s : string) : string :=
  match s with
  | EmptyString => EmptyString
  | String c rest => if int_isspace c then skip_spaces rest else s
  end.

Definition int_strip (s : string) : string :=
  String.rev (skip_spaces (String.rev (skip_spaces s))).

(** [int(s)] for a string: surrounding white space, an optional sign,
    then the digits; [None] stands for [ValueError]. *)
Definition parse_int_literal (s : string) : option Z :=
  let s := int_strip s in
  let '(negative, body) :=
    match s with
    | String "-" rest => (true, rest)
    | String "+" rest => (false, rest)
    | _ => (false, s)
    end in
  if (int_max_str_digits <? count_digits body)%N then None
  else match scan_digits body 0 false with
       | Some n => Some (if negative then (- n)%Z else n)
       | None => None
       end.

Definition py_int (v : pyval) : result Z :=
  match v with
  | PNone => Raise TypeError
  | PBool b => Ok (if b then 1 else 0)%Z
  | PInt z => Ok z
  | PFloat (FFinite q) => Ok (Z.quot (Qnum q) (Z.pos (Qden q)))
  | PFloat (FInf _) => Raise OverflowError
  | PFloat FNaN => Raise ValueError
  | PStr s =>
      match parse_int_literal s with
      | Some z => Ok z
      | None => Raise ValueError
      end
  | PList _ => Raise TypeError
  | PDict _ => Raise TypeError
  end.

(** [_safe_int]: [except (ValueError, TypeError): return 0]. *)
Definition _safe_int (v : pyval) : result Z :=
  match py_int v with
  | Ok z => Ok z
  | Raise ValueError => Ok 0%Z
  | Raise TypeError => Ok 0%Z
  | Raise e => Raise e
  end.

(** ** Configuration ([Config], the fields the waiter reads) *)

Record Config : Type := {
  session_timeout : Z;
  poll_interval : Z;
  inaccessible_resolver : string;
  stopped_resolver : string;
  failed_resolver : string;
  done_resolver : string;
  suspended_resolver : string
}.

(** The defaults of [Config.__init__]: 30 minutes, polled every minute. *)
Definition default_config : Config := {|
  session_timeout := 30 * 60;
  poll_interval := 60;
  inaccessible_resolver := "fail";
  stopped_resolver := "fail";
  failed_resolver := "fail";
  done_resolver := "continue";
  suspended_resolver := "continue"
|}.

(** ** The vAPI client *)

(** What comes back from the server once the body is read and decoded:
    nothing but white space, a JSON document, or text that is not JSON. *)
Inductive body : Type :=
| BodyBlank
| BodyJson (v : pyval)
| BodyText (raw : string).

(** One HTTP exchange, as [urlopen] and [resp.read] end it. [OtherFailure]
    is any exception that is neither [HTTPError] nor [URLError] (a socket
    timeout while reading, a reset connection, undecodable bytes). *)
Inductive exchange : Type :=
| Responded (b : body)
| HTTPError (code : Z) (err_body : string)
| URLError (reason : string)
| OtherFailure.

Inductive client_exn : Type :=
| VAPIError (code : Z) (message : string)
| OtherException.

Inductive fetched : Type :=
| Got (v : pyval)
| Threw (e : client_exn).

(** [VAPIClient.request] *)
Definition request (x : exchange) : fetched :=
  match x with
  | Responded BodyBlank => Got (PDict [])
  | Responded (BodyJson v) => Got v
  | Responded (BodyText raw) => Got (PStr raw)
  | HTTPError code err_body => Threw (VAPIError code err_body)
  | URLError reason => Threw (VAPIError 0 reason)
  | OtherFailure => Threw OtherException
  end.

(** [VAPIClient.get_session_status] *)
Definition get_session_status (x : exchange) : fetched :=
  match request x with
  | Got (PList (first :: _)) => Got first
  | Got _ => Got (PDict [])
  | Threw e => Threw e
  end.

(** ** [SessionWaiter] *)

Record SessionWaiter : Type := {
  session_ids : list string;
  remaining : list string;
  session_names : gmap string pyval;
  completed_last_check : gmap string bool;
  final_state : gmap string bool
}.

(** [SessionWaiter.__init__] *)
Definition new_waiter (ids : list string) : SessionWaiter := {|
  session_ids := ids;
  remaining := ids;
  session_names := ∅;
  completed_last_check := ∅;
  final_state := ∅
|}.

Definition set_remaining (r : list string) (w : SessionWaiter) : SessionWaiter :=
  {| session_ids := session_ids w; remaining := r;
     session_names := session_names w;
     completed_last_check := completed_last_check w;
     final_state := final_state w |}.

Definition set_name (sid : string) (name : pyval) (w : SessionWaiter) : SessionWaiter :=
  {| session_ids := session_ids w; remaining := remaining w;
     session_names := <[sid := name]> (session_names w);
     completed_last_check := completed_last_check w;
     final_state := final_state w |}.

Definition set_completed_last_check (sid : string) (b : bool) (w : SessionWaiter)
  : SessionWaiter :=
  {| session_ids := session_ids w; remaining := remaining w;
     session_names := session_names w;
     completed_last_check := <[sid := b]> (completed_last_check w);
     final_state := final_state w |}.

Definition set_final_state (sid : string) (b : bool) (w : SessionWaiter)
  : SessionWaiter :=
  {| session_ids := session_ids w; remaining := remaining w;
     session_names := session_names w;
     completed_last_check := completed_last_check w;
     final_state := <[sid := b]> (final_state w) |}.

(** [d.get(sid)] used as a condition: a missing key gives [None]. *)
Definition flag (d : gmap string bool) (sid : string) : bool :=
  default false (d !! sid).

(** [_get_resolver]: a dict literal looked up with [.get(state, "ignore")];
    the lookup hashes [state], which a list or a dict does not allow. *)
Definition _get_resolver (cfg : Config) (state : pyval) : result string :=
  let resolvers := [
    ("inaccessible", inaccessible_resolver cfg);
    ("stopped", stopped_resolver cfg);
    ("failed", failed_resolver cfg);
    ("done", done_resolver cfg);
    ("suspended", suspended_resolver cfg);
    ("completed", "continue")
  ] in
  match state with
  | PStr s => Ok (dict_get resolvers s "ignore")
  | PList _ => Raise TypeError
  | PDict _ => Raise TypeError
  | _ => Ok "ignore"
  end.

(** [list.remove(x)]: the first occurrence goes. *)
Fixpoint remove_first (x : string) (l : list string) : list string :=
  match l with
  | [] => []
  | y :: rest => if String.eqb y x then rest else y :: remove_first x rest
  end.

(** [_check_all_done] *)
Definition _check_all_done (w : SessionWaiter) (sid : string) : SessionWaiter * bool :=
  let w' :=
    if flag (final_state w) sid
    then (if bool_decide (sid ∈ remaining w)
          then set_remaining (remove_first sid (remaining w)) w
          else w)
    else w in
  (w', Nat.eqb (length (remaining w')) 0).

(** The rerun detection of [wait]: the flags of [sid] after an observation
    of its [running] and [waiting] counts, and whether this observation is
    the one that sets [final_state[sid] = True]. *)
Definition rerun_check (w : SessionWaiter) (sid : string) (running waiting : pyval)
  : SessionWaiter * bool :=
  if py_eq_zero running && py_eq_zero waiting then
    if flag (completed_last_check w) sid
    then (set_final_state sid true w, true)
    else (set_final_state sid false (set_completed_last_check sid true w), false)
  else (set_final_state sid false (set_completed_last_check sid false w), false).

(** [aggregated], the dict local to [wait]: session id to status record. *)
Abbreviation aggregate := (list (string * pydict)).

(** How the body of the [for] loop ends for one session. *)
Inductive step : Type :=
| Next (w : SessionWaiter) (agg : aggregate)
| Break (w : SessionWaiter) (agg : aggregate)
| Halt (success : bool) (w : SessionWaiter) (agg : aggregate)
| Fault (e : exn).

(** The resolver part of the loop body. *)
Definition apply_resolver (cfg : Config) (sid : string) (state : pyval)
    (w : SessionWaiter) (agg : aggregate) : step :=
  match _get_resolver cfg state with
  | Raise e => Fault e
  | Ok resolver =>
      if py_eq_str state "completed" then
        let '(w', done) := _check_all_done w sid in
        if done then Halt true w' agg else Next w' agg
      else if String.eqb resolver "fail" then Halt false w agg
      else if String.eqb resolver "continue" then
        let '(w', done) := _check_all_done w sid in
        if done then Halt true w' agg else Next w' agg
      else Next w agg
  end.

(** The loop body from [state = info.get(...)] on, for a status record
    that is a dict. *)
Definition examine (cfg : Config) (sid : string) (info : pydict)
    (w : SessionWaiter) (agg : aggregate) : step :=
  let state := dict_get info "session_status" (PStr "unknown") in
  let name := dict_get info "name" (PStr sid) in
  let running := dict_get info "running" (PInt 0) in
  let waiting := dict_get info "waiting" (PInt 0) in
  let w := set_name sid name w in
  let agg := dict_set agg sid info in
  let '(w, confirmed) := rerun_check w sid running waiting in
  if confirmed && py_eq_str state "failed" then
    let '(w', done) := _check_all_done w sid in
    if done then Halt true w' agg else apply_resolver cfg sid state w' agg
  else apply_resolver cfg sid state w agg.

(** The whole loop body for one session, given how its fetch ends. *)
Definition poll_session (cfg : Config) (sid : string) (x : exchange)
    (w : SessionWaiter) (agg : aggregate) : step :=
  match get_session_status x with
  | Threw (VAPIError _ _) => Next w agg
  | Threw OtherException => Break w agg
  | Got info =>
      if negb (py_truthy info) then Halt false w agg
      else match info with
           | PDict d => examine cfg sid d w agg
           | _ => Fault AttributeError
           end
  end.

(** What the loop does to the outside world. *)
Inductive event : Type :=
| EvSleep (seconds : Z)
| EvFetch (sid : string).

(** [for sid in list(self.session_ids)]: the [i]-th fetch of the sweep
    ends as [fetch i] says. *)
Fixpoint sweep (cfg : Config) (fetch : nat -> exchange) (i : nat)
    (ids : list string) (w : SessionWaiter) (agg : aggregate) : list event * step :=
  match ids with
  | [] => ([], Next w agg)
  | sid :: rest =>
      match poll_session cfg sid (fetch i) w agg with
      | Next w' agg' =>
          let '(tr, r) := sweep cfg fetch (S i) rest w' agg' in
          (EvFetch sid :: tr, r)
      | r => ([EvFetch sid], r)
      end
  end.

(** One turn of [while True] as the outside world sees it: the value of
    [time.time() - start_time] at the top, then the fetches. *)
Record poll : Type := {
  elapsed : Q;
  fetch : nat -> exchange
}.

Definition Qltb (a b : Q) : bool :=
  (Qnum a * Z.pos (Qden b) <? Qnum b * Z.pos (Qden a))%Z.

(** [self.cfg.session_timeout > 0 and elapsed > self.cfg.session_timeout] *)
Definition timeout_fires (cfg : Config) (e : Q) : bool :=
  (0 <? session_timeout cfg)%Z && Qltb (inject_Z (session_timeout cfg)) e.

Inductive outcome : Type :=
| Returned (success : bool) (agg : aggregate)
| Exited (status : Z)
| Raised (e : exn)
| Polling (w : SessionWaiter) (agg : aggregate).

(** [time.sleep(secs)] for an int. The length is first converted to the
    clock's signed 64-bit count of nanoseconds, which raises
    [OverflowError] beyond [max_sleep] seconds on either side; a negative
    length is then a [ValueError]. *)
Definition max_sleep : Z := 9223372036.

Definition time_sleep (secs : Z) : result unit :=
  if (secs <? - max_sleep)%Z || (max_sleep <? secs)%Z then Raise OverflowError
  else if (secs <? 0)%Z then Raise ValueError
  else Ok tt.

(** [while True]: the script gives one [poll] per turn; [Polling] is the
    loop still running when the script ends. [fail] exits with status 1;
    an exception of [time.sleep] ends the wait before anything is
    fetched. *)
Fixpoint wait_loop (cfg : Config) (script : list poll) (w : SessionWaiter)
    (agg : aggregate) : list event * outcome :=
  match script with
  | [] => ([], Polling w agg)
  | p :: rest =>
      if timeout_fires cfg (elapsed p) then ([], Exited 1)
      else
        match time_sleep (poll_interval cfg) with
        | Raise e => ([], Raised e)
        | Ok _ =>
            let '(tr, r) := sweep cfg (fetch p) 0 (session_ids w) w agg in
            match r with
            | Halt success _ agg' =>
                (EvSleep (poll_interval cfg) :: tr, Returned success agg')
            | Fault e => (EvSleep (poll_interval cfg) :: tr, Raised e)
            | Next w' agg' | Break w' agg' =>
                let '(tr', o) := wait_loop cfg rest w' agg' in
                (EvSleep (poll_interval cfg) :: tr ++ tr', o)
            end
        end
  end.

(** [SessionWaiter(client, cfg, session_ids).wait()] *)
Definition wait (cfg : Config) (ids : list string) (script : list poll)
  : list event * outcome :=
  wait_loop cfg script (new_waiter ids) [].

(** ** Run statistics ([get_aggregated_stats]) *)

(** The dict [totals], whose six keys are fixed. *)
Record totals : Type := {
  total_runs : Z;
  passed : Z;
  failed : Z;
  running : Z;
  waiting : Z;
  other : Z
}.

Definition zero_totals : totals :=
  {| total_runs := 0; passed := 0; failed := 0; running := 0; waiting := 0;
     other := 0 |}.

(** The body of the [for] loop: six [+=], each on [_safe_int] of a field
    read with default 0. An exception leaves the function at once. *)
Definition add_info (t : totals) (info : pydict) : result totals :=
  a ← _safe_int (dict_get info "total_runs_in_session" (PInt 0));
  let t := {| total_runs := total_runs t + a; passed := passed t;
              failed := failed t; running := running t;
              waiting := waiting t; other := other t |} in
  a ← _safe_int (dict_get info "passed_runs" (PInt 0));
  let t := {| total_runs := total_runs t; passed := passed t + a;
              failed := failed t; running := running t;
              waiting := waiting t; other := other t |} in
  a ← _safe_int (dict_get info "failed_runs" (PInt 0));
  let t := {| total_runs := total_runs t; passed := passed t;
              failed := failed t + a; running := running t;
              waiting := waiting t; other := other t |} in
  a ← _safe_int (dict_get info "running" (PInt 0));
  let t := {| total_runs := total_runs t; passed := passed t;
              failed := failed t; running := running t + a;
              waiting := waiting t; other := other t |} in
  a ← _safe_int (dict_get info "waiting" (PInt 0));
  let t := {| total_runs := total_runs t; passed := passed t;
              failed := failed t; running := running t;
              waiting := waiting t + a; other := other t |} in
  a ← _safe_int (dict_get info "other_runs" (PInt 0));
  Ok {| total_runs := total_runs t; passed := passed t;
        failed := failed t; running := running t;
        waiting := waiting t; other := other t + a |}.

Fixpoint sum_infos (infos : list pydict) (t : totals) : result totals :=
  match infos with
  | [] => Ok t
  | info :: rest =>
      match add_info t info with
      | Ok t' => sum_infos rest t'
      | Raise e => Raise e
      end
  end.

Definition get_aggregated_stats (aggregated : aggregate) : result totals :=
  sum_infos (dict_values aggregated) zero_totals.

(** ** The JUnit report *)

Section Report.

(** [repr] of the values whose text Python computes from floating-point
    digits or from nested values: floats, lists and dicts. *)
Variable py_repr : pyval -> string.

(** [str(v)], which is also what an f-string puts for [{v}]. *)
Definition py_str (v : pyval) : string :=
  match v with
  | PNone => "None"
  | PBool true => "True"
  | PBool false => "False"
  | PInt z => pretty z
  | PStr s => s
  | _ => py_repr v
  end.

(** [xml.sax.saxutils.escape(data, entities)] *)
Definition xml_escape (data : string) (entities : list (string * string)) : string :=
  let data := replace "&" "&amp;" data in
  let data := replace ">" "&gt;" data in
  let data := replace "<" "&lt;" data in
  fold_left (fun s kv => replace kv.1 kv.2 s) entities data.

Definition _xml_safe (text : pyval) : string :=
  match text with
  | PNone => "NA"
  | _ => xml_escape (py_str text) [(dquote, "&quot;"); ("'", "&apos;")]
  end.

(** The set literal [built_in]. *)
Definition built_in : list string :=
  ["first_failure_name"; "first_failure_description"; "computed_seed";
   "test_group"; "test_name"].

Definition in_set (x : string) (s : list string) : bool :=
  existsb (String.eqb x) s.

Definition indent : string := nl +:+ "    ".

(** The [for] loop of [_build_extra_attr_text], with [parts] as it
    stands. *)
Fixpoint extra_attr_parts (run : pydict) (labels : pydict) (attrs : list string)
    (parts : list string) : list string :=
  match attrs with
  | [] => parts
  | attr :: rest =>
      let attr := strip attr in
      if String.eqb attr EmptyString || contains_char " " attr
         || in_set attr built_in
      then extra_attr_parts run labels rest parts
      else
        let val := dict_get run attr (PStr "NA") in
        let val := match val with
                   | PStr s => PStr (replace "<__SEPARATOR__>" indent s)
                   | _ => val
                   end in
        let label := dict_get labels attr (PStr attr) in
        extra_attr_parts run labels rest
          (parts ++ [py_str label +:+ ":" +:+ indent +:+ _xml_safe val])%list
  end.

Definition _build_extra_attr_text (run : pydict) (attrs : list string)
    (labels : pydict) : string :=
  match attrs with
  | [] => EmptyString
  | _ => join nl (extra_attr_parts run labels attrs [])
  end.

(** [duration = run.get("duration", 0)], then [int(duration)] with
    [except (ValueError, TypeError): duration = 0]. *)
Definition run_duration (run : pydict) : result Z :=
  match py_int (dict_get run "duration" (PInt 0)) with
  | Ok d => Ok d
  | Raise ValueError => Ok 0%Z
  | Raise TypeError => Ok 0%Z
  | Raise e => Raise e
  end.

Definition default_error_desc : string :=
  "Run is in state running, other or waiting. "
  +:+ "Reason for run to mark as failed is because session changed status.".

(** The opening tag of a test case; [ending] is [>] or [/>]. *)
Definition testcase_tag (test_group full_name : string) (duration : Z)
    (ending : string) : string :=
  "    <testcase classname=" +:+ dquote +:+ test_group +:+ dquote
  +:+ " name=" +:+ dquote +:+ full_name +:+ dquote
  +:+ " time=" +:+ dquote +:+ pretty duration +:+ dquote +:+ ending.

(** The name under which a run is reported. *)
Definition full_name (run : pydict) (no_append_seed : bool) : string :=
  let test_name := _xml_safe (dict_get run "test_name" (PStr "NA")) in
  let seed := _xml_safe (dict_get run "computed_seed" (PStr "NA")) in
  let seed_suffix := if no_append_seed then EmptyString else " : Seed-" +:+ seed in
  test_name +:+ seed_suffix.

(** The lines one run adds to the report. *)
Definition testcase_lines (run : pydict) (extra_attrs : list string)
    (attr_labels : pydict) (no_append_seed : bool) : result (list string) :=
  let status := dict_get run "status" (PStr "NA") in
  let test_group := _xml_safe (dict_get run "test_group" (PStr "NA")) in
  let seed := _xml_safe (dict_get run "computed_seed" (PStr "NA")) in
  duration ← run_duration run;
  let name := full_name run no_append_seed in
  if py_eq_str status "failed" then
    let error_name :=
      _xml_safe (dict_get run "first_failure_name" (PStr "RUN_STILL_IN_PROGRESS")) in
    let error_desc :=
      _xml_safe (dict_get run "first_failure_description" (PStr default_error_desc)) in
    let extra := _build_extra_attr_text run extra_attrs attr_labels in
    Ok [ testcase_tag test_group name duration ">";
         "      <failure message=" +:+ dquote +:+ error_name +:+ dquote
         +:+ " type=" +:+ dquote +:+ error_name +:+ dquote +:+ ">"
         +:+ "First Error Description: " +:+ nl +:+ error_desc +:+ nl
         +:+ "Computed Seed: " +:+ nl +:+ seed +:+ nl
         +:+ extra
         +:+ "</failure>";
         "    </testcase>" ]
  else if py_eq_str status "stopped" || py_eq_str status "running"
          || py_eq_str status "other" || py_eq_str status "waiting" then
    Ok [ testcase_tag test_group name duration ">";
         "      <skipped />";
         "    </testcase>" ]
  else
    Ok [ testcase_tag test_group name duration "/>" ].

(** [for run in runs], with [lines] as it stands. *)
Fixpoint testcases (runs : list pydict) (extra_attrs : list string)
    (attr_labels : pydict) (no_append_seed : bool) (lines : list string)
  : result (list string) :=
  match runs with
  | [] => Ok lines
  | run :: rest =>
      match testcase_lines run extra_attrs attr_labels no_append_seed with
      | Ok new => testcases rest extra_attrs attr_labels no_append_seed
                    (lines ++ new)%list
      | Raise e => Raise e
      end
  end.

(** [generate_junit_xml]: the text written to [output_path], or [None]
    when there is no run and no file is written. *)
Definition generate_junit_xml (runs : list pydict) (extra_attrs : list string)
    (attr_labels : pydict) (no_append_seed : bool) : result (option string) :=
  match runs with
  | [] => Ok None
  | _ =>
      let lines := [
        "<?xml version=" +:+ dquote +:+ "1.0" +:+ dquote
        +:+ " encoding=" +:+ dquote +:+ "UTF-8" +:+ dquote +:+ "?>";
        "<testsuite tests=" +:+ dquote +:+ pretty (length runs) +:+ dquote
        +:+ " name=" +:+ dquote +:+ "Verisium Manager" +:+ dquote +:+ ">"
      ] in
      match testcases runs extra_attrs attr_labels no_append_seed lines with
      | Ok lines => Ok (Some (join nl (lines ++ ["</testsuite>"])%list +:+ nl))
      | Raise e => Raise e
      end
  end.

End Report.

(** * The vocabulary of the statements *)

Definition zero_zero (running waiting : pyval) : bool :=
  py_eq_zero running && py_eq_zero waiting.

(** The observations of a whole run of the waiter, in the order the loop
    makes them: session id, [running], [waiting]. *)
Definition track (w : SessionWaiter) (obs : list (string * pyval * pyval))
  : SessionWaiter :=
  fold_left (fun w o => (rerun_check w o.1.1 o.1.2 o.2).1) obs w.

(** Whether the latest observation of [sid] among [obs] was zero/zero;
    [None] when [sid] was not observed. *)
Fixpoint last_zero (sid : string) (obs : list (string * pyval * pyval))
  : option bool :=
  match obs with
  | [] => None
  | o :: rest =>
      match last_zero sid rest with
      | Some z => Some z
      | None => if String.eqb o.1.1 sid then Some (zero_zero o.1.2 o.2) else None
      end
  end.

(** A fetch that fails for lack of a working connection: urllib's
    [URLError] (host unreachable, connection refused, name not resolved)
    or another exception of the exchange. An [HTTPError] is an answer of
    the server. *)
Definition transport_failure (x : exchange) : bool :=
  match x with
  | URLError _ => true
  | OtherFailure => true
  | _ => false
  end.

(** What a turn comes to once its sleep is through: a sleep longer than
    the clock can count raises [OverflowError] first, and then nothing of
    the turn takes place. *)
Definition after_sleep (cfg : Config) (turn : list event * outcome)
  : list event * outcome :=
  if (max_sleep <? poll_interval cfg)%Z then ([], Raised OverflowError) else turn.

(** What the turn is when the sweep is abandoned at the session after
    [pre]: its events end with that fetch, and the loop goes on from the
    state the sessions before it left. *)
Definition abandoned_at (cfg : Config) (rest : list poll) (sid : string)
    (tr : list event) (w1 : SessionWaiter) (agg1 : aggregate)
  : list event * outcome :=
  let '(tr', o) := wait_loop cfg rest w1 agg1 in
  (EvSleep (poll_interval cfg) :: (tr ++ [EvFetch sid] ++ tr')%list, o).

(** [sid] is the only session still in [remaining], or none is. *)
Definition last_remaining (sid : string) (rem : list string) : bool :=
  Nat.eqb (length (remove_first sid rem)) 0.

(** The observation made by [examine], spelled out. *)
Definition confirms (info : pydict) (w : SessionWaiter) (sid : string) : bool :=
  zero_zero (dict_get info "running" (PInt 0)) (dict_get info "waiting" (PInt 0))
  && flag (completed_last_check w) sid.

(** The fields read, each with the total it goes to. *)
Definition stat_fields : list (string * (totals -> Z)) := [
  ("total_runs_in_session", total_runs);
  ("passed_runs", passed);
  ("failed_runs", failed);
  ("running", running);
  ("waiting", waiting);
  ("other_runs", other)
].

(** A field value that is not a number: [None], a list, a dict, or a
    string that is not an integer literal. *)
Definition non_numeric (v : pyval) : bool :=
  match v with
  | PNone => true
  | PList _ => true
  | PDict _ => true
  | PStr s => match parse_int_literal s with Some _ => false | None => true end
  | _ => false
  end.

(** The field is missing from the record or holds no number. *)
Definition malformed (info : pydict) (key : string) : bool :=
  match dict_lookup info key with
  | None => true
  | Some v => non_numeric v
  end.

(** One of the six fields read from the record is a float infinity. *)
Definition infinite_field (info : pydict) : Prop :=
  exists key negative,
    In key (map fst stat_fields)
    /\ dict_lookup info key = Some (PFloat (FInf negative)).

(** What one record adds to each total. *)
Definition contribution (info : pydict) : result totals :=
  a ← _safe_int (dict_get info "total_runs_in_session" (PInt 0));
  b ← _safe_int (dict_get info "passed_runs" (PInt 0));
  c ← _safe_int (dict_get info "failed_runs" (PInt 0));
  d ← _safe_int (dict_get info "running" (PInt 0));
  e ← _safe_int (dict_get info "waiting" (PInt 0));
  f ← _safe_int (dict_get info "other_runs" (PInt 0));
  Ok {| total_runs := a; passed := b; failed := c; running := d;
        waiting := e; other := f |}.

Definition add_totals (t c : totals) : totals :=
  {| total_runs := total_runs t + total_runs c;
     passed := passed t + passed c;
     failed := failed t + failed c;
     running := running t + running c;
     waiting := waiting t + waiting c;
     other := other t + other c |}.

(** [status in (...)] for a tuple of string literals. *)
Definition status_in (status : pyval) (names : list string) : bool :=
  existsb (py_eq_str status) names.

(** The body of the [failure] element of a failed run. *)
Definition failure_body (py_repr : pyval -> string) (run : pydict)
    (extra_attrs : list string) (attr_labels : pydict) : string :=
  "First Error Description: " +:+ nl
  +:+ _xml_safe py_repr
        (dict_get run "first_failure_description" (PStr default_error_desc))
  +:+ nl +:+ "Computed Seed: " +:+ nl
  +:+ _xml_safe py_repr (dict_get run "computed_seed" (PStr "NA")) +:+ nl
  +:+ _build_extra_attr_text py_repr run extra_attrs attr_labels.

(** The entry the specification gives a run by its status, [d] being
    its duration as an integer: a plain test case outside the five
    statuses, the default failure for [failed] with no
    [first_failure_name], a skipped test case for the other four. *)
Definition entry_by_status (py_repr : pyval -> string) (extra_attrs : list string)
    (attr_labels : pydict) (no_append_seed : bool) (run : pydict) (d : Z)
    (lines : list string) : Prop :=
  let status := dict_get run "status" (PStr "NA") in
  let test_group := _xml_safe py_repr (dict_get run "test_group" (PStr "NA")) in
  let name := full_name py_repr run no_append_seed in
  (status_in status ["failed"; "stopped"; "running"; "other"; "waiting"] = false ->
     lines = [testcase_tag test_group name d "/>"])
  /\ (status = PStr "failed" ->
      dict_lookup run "first_failure_name" = None ->
      lines = [testcase_tag test_group name d ">";
               "      <failure message=" +:+ dquote +:+ "RUN_STILL_IN_PROGRESS"
               +:+ dquote +:+ " type=" +:+ dquote +:+ "RUN_STILL_IN_PROGRESS"
               +:+ dquote +:+ ">"
               +:+ failure_body py_repr run extra_attrs attr_labels
               +:+ "</failure>";
               "    </testcase>"])
  /\ (status_in status ["stopped"; "running"; "other"; "waiting"] = true ->
      lines = [testcase_tag test_group name d ">";
               "      <skipped />";
               "    </testcase>"]).

(** The names left out of the failure body: empty once trimmed, holding a
    space, or one of the built-in field names. *)
Definition omitted (name : string) : bool :=
  String.eqb (strip name) EmptyString
  || contains_char " " (strip name)
  || in_set (strip name) built_in.

(** The block the specification describes for one attribute: the label
    and a colon, then the value on an indented line, [NA] standing for a
    value the run does not have. *)
Definition attr_block (py_repr : pyval -> string) (run labels : pydict)
    (name : string) : string :=
  let value :=
    match dict_lookup run (strip name) with
    | None => "NA"
    | Some (PStr s) => _xml_safe py_repr (PStr (replace "<__SEPARATOR__>" indent s))
    | Some v => _xml_safe py_repr v
    end in
  py_str py_repr (dict_get labels (strip name) (PStr (strip name)))
  +:+ ":" +:+ indent +:+ value.

(** Replacing one character, as [replace] does for a one-character
    pattern. *)
Fixpoint subst_char (c : ascii) (new : string) (s : string) : string :=
  match s with
  | EmptyString => EmptyString
  | String x rest =>
      if Ascii.eqb x c then new +:+ subst_char c new rest
      else String x (subst_char c new rest)
  end.

(** The characters XML reserves in text and attribute values, the
    ampersand apart. *)
Definition xml_special : list ascii := ["<"; ">"; "034"; "'"]%char.

(** * Sample configurations, exchanges and records *)


Definition status_record (state : string) (running waiting : Z) : exchange :=
  Responded (BodyJson (PList [PDict [
    ("session_status", PStr state);
    ("running", PInt running);
    ("waiting", PInt waiting)]])).

Definition deleted : exchange := Responded (BodyJson (PList [])).

Definition flaky_then_deleted : poll := {|
  elapsed := 0;
  fetch := fun i => match i with 0 => URLError "refused" | _ => deleted end
|}.

Definition broken_then_deleted : poll := {|
  elapsed := 0;
  fetch := fun i => match i with 0 => OtherFailure | _ => deleted end
|}.

Definition completed_and_idle : poll := {|
  elapsed := 0;
  fetch := fun i => match i with
                    | 0 => status_record "completed" 0 0
                    | _ => status_record "running" 0 0
                    end
|}.

Definition completed_and_failed : poll := {|
  elapsed := 60;
  fetch := fun i => match i with
                    | 0 => status_record "completed" 0 0
                    | _ => status_record "failed" 0 0
                    end
|}.

Definition idle : poll := {|
  elapsed := 0;
  fetch := fun _ => status_record "running" 0 0
|}.

Definition failed_twice_idle : poll := {|
  elapsed := 60;
  fetch := fun _ => status_record "failed" 0 0
|}.

(** Of two sessions the first one is through, with no run active, and the
    second one is running. *)
Definition done_and_running : poll := {|
  elapsed := 0;
  fetch := fun i => match i with
                    | 0 => status_record "completed" 0 0
                    | _ => status_record "running" 1 0
                    end
|}.

(** Every session has runs going, as after a rerun. *)
Definition all_running : poll := {|
  elapsed := 0;
  fetch := fun _ => status_record "running" 2 0
|}.

Definition sample_stats : aggregate := [
  ("s1", [("total_runs_in_session", PInt 10); ("passed_runs", PInt 7);
          ("failed_runs", PStr "3"); ("running", PNone)]);
  ("s2", [("total_runs_in_session", PInt 5); ("passed_runs", PStr "n/a");
          ("failed_runs", PInt 1); ("other_runs", PList [])])
].

Definition sample_failed_run : pydict := [
  ("status", PStr "failed");
  ("owner", PStr "a<__SEPARATOR__>b");
  ("test_name", PStr "t1")
].

(** * Further vocabulary: what the waiter keeps *)

(** [d.keys()] *)
Definition dict_keys {V : Type} (d : list (string * V)) : list string := map fst d.

(** The records [wait] has gathered: one per session id at most, each for
    a tracked session, none empty. *)
Definition aggregate_ok (ids : list string) (agg : aggregate) : Prop :=
  NoDup (dict_keys agg)
  /\ (forall k, k ∈ dict_keys agg -> k ∈ ids)
  /\ (forall k d, (k, d) ∈ agg -> d <> []).

(** The aggregate an outcome carries, if it carries one. *)
Definition outcome_aggregate (o : outcome) : option aggregate :=
  match o with
  | Returned _ agg => Some agg
  | Polling _ agg => Some agg
  | _ => None
  end.

Definition is_sleep (e : event) : bool :=
  match e with
  | EvSleep _ => true
  | EvFetch _ => false
  end.

(** How many times the loop has slept. *)
Definition count_sleeps (tr : list event) : nat := length (List.filter is_sleep tr).


(** No session of the sweep has been seen yet with zero counts, none is
    confirmed, and some session remains. *)
Definition unconfirmed (todo : list string) (w : SessionWaiter) : Prop :=
  remaining w <> []
  /\ (forall sid, flag (final_state w) sid = false)
  /\ (forall sid, sid ∈ todo -> flag (completed_last_check w) sid = false).

(** * More of the program *)

(** ** Lists given as text *)

(** [s.split(sep)] for a one-character [sep]. *)
Fixpoint split_on (sep : ascii) (s : string) : list string :=
  match s with
  | EmptyString => [EmptyString]
  | String c rest =>
      if Ascii.eqb c sep then EmptyString :: split_on sep rest
      else match split_on sep rest with
           | first :: others => String c first :: others
           | [] => [String c EmptyString]
           end
  end.

(** [[v.strip() for v in items if v.strip()]] *)
Definition stripped_nonempty (items : list string) : list string :=
  map strip (List.filter (fun v => negb (String.eqb (strip v) EmptyString)) items).

(** [extra_list] of [main]: the comma-separated names of
    [cfg.extra_attributes], or nothing when that text is empty. *)
Definition extra_list (extra_attributes : string) : list string :=
  if String.eqb extra_attributes EmptyString then []
  else stripped_nonempty (split_on "," extra_attributes).

(** [vsif_files] of [run_launcher_mode] for a non-empty [cfg.vsif_path]. *)
Definition static_vsif_files (vsif_path : string) : list string :=
  stripped_nonempty (split_on ";" vsif_path).

(** The first character of a string is no white space (so for the empty
    string). *)
Definition starts_clean (s : string) : bool :=
  match s with
  | EmptyString => true
  | String c _ => negb (py_isspace c)
  end.

(** ** The projection of [get_runs] *)

Definition base_selection : list string :=
  ["test_name"; "status"; "duration"; "test_group"; "computed_seed"; "id";
   "first_failure_name"; "first_failure_description"].

(** The [for] loop over [extra_attrs], with [selection] as it stands. *)
Fixpoint extend_selection (extra_attrs : list string) (selection : list string)
  : list string :=
  match extra_attrs with
  | [] => selection
  | attr :: rest =>
      let attr := strip attr in
      if negb (String.eqb attr EmptyString) && negb (in_set attr selection)
      then extend_selection rest (selection ++ [attr])
      else extend_selection rest selection
  end.

(** [selection] of [get_runs]; [None] stands for [extra_attrs=None]. An
    empty list is no more looked at than [None]. *)
Definition run_selection (extra_attrs : option (list string)) : list string :=
  match extra_attrs with
  | Some (attr :: rest) => extend_selection (attr :: rest) base_selection
  | _ => base_selection
  end.

(** ** [get_runs]: one request per session *)

Inductive runs_result : Type :=
| Runs (all_runs : list pyval)
| RunsRaised.

(** The [for] loop over the sessions, given how each request ends and
    [all_runs] as it stands. A [VAPIError] is warned about and passed
    over; any other exception leaves the function. *)
Fixpoint collect_runs (exchanges : list exchange) (all_runs : list pyval)
  : runs_result :=
  match exchanges with
  | [] => Runs all_runs
  | x :: rest =>
      match request x with
      | Got (PList result) => collect_runs rest (all_runs ++ result)
      | Got _ => collect_runs rest all_runs
      | Threw (VAPIError _ _) => collect_runs rest all_runs
      | Threw OtherException => RunsRaised
      end
  end.

Definition get_runs (exchanges : list exchange) : runs_result :=
  collect_runs exchanges [].

(** The runs one session brings: those of a list answer, none otherwise. *)
Definition session_runs (x : exchange) : list pyval :=
  match request x with
  | Got (PList result) => result
  | _ => []
  end.

(** ** [tobool] *)

(** [str.lower] on one character, for code points below 256: the letters
    A to Z and the capital letters of Latin-1 (192 to 222, the
    multiplication sign 215 apart) move up by 32. *)
Definition py_lower_char (c : ascii) : ascii :=
  let n := N_of_ascii c in
  if ((65 <=? n) && (n <=? 90)
      || (192 <=? n) && (n <=? 222) && negb (n =? 215))%N
  then ascii_of_N (n + 32)
  else c.

Fixpoint lower (s : string) : string :=
  match s with
  | EmptyString => EmptyString
  | String c rest => String (py_lower_char c) (lower rest)
  end.

Definition tobool (value : string) : bool :=
  in_set (lower (strip value)) ["true"; "1"; "yes"].

(** ** Escaped text *)

(** What may follow an ampersand in escaped text. *)
Definition entity_names : list string := ["amp;"; "gt;"; "lt;"; "quot;"; "apos;"].

(** Every ampersand of [s] starts one of the five entities. *)
Fixpoint ampersands_escaped (s : string) : bool :=
  match s with
  | EmptyString => true
  | String c rest =>
      (if Ascii.eqb c "&"
       then existsb (fun name => String.prefix name rest) entity_names
       else true)
      && ampersands_escaped rest
  end.

(** The five characters [_xml_safe] replaces. *)
Definition xml_replaced : list ascii := ["&"; "<"; ">"; "034"; "'"]%char.

(** ** Launching sessions *)






(** ** The overall status ([main]) *)

(** Equality of two floats, as [==] and the set of statuses see it. The
    one NaN object of the [json] module is the same as itself. *)
Definition float_same (f g : pyfloat) : bool :=
  match f, g with
  | FFinite p, FFinite q => Qeq_bool p q
  | FInf a, FInf b => Bool.eqb a b
  | FNaN, FNaN => true
  | _, _ => false
  end.

(** A boolean, an integer or a float, as a number. *)
Definition as_number (v : pyval) : option pyfloat :=
  match v with
  | PBool b => Some (FFinite (if b then 1 else 0))
  | PInt z => Some (FFinite (inject_Z z))
  | PFloat f => Some f
  | _ => None
  end.

(** Whether a set holding [b] takes [a] for an element it has: numbers are
    compared by value across [bool], [int] and [float], strings by their
    characters, and [None] is itself. *)
Definition py_same (a b : pyval) : bool :=
  match as_number a, as_number b with
  | Some f, Some g => float_same f g
  | None, None =>
      match a, b with
      | PNone, PNone => true
      | PStr s, PStr t => String.eqb s t
      | _, _ => false
      end
  | _, _ => false
  end.

(** A list or a dict cannot go into a set. *)
Definition hashable (v : pyval) : bool :=
  match v with
  | PList _ => false
  | PDict _ => false
  | _ => true
  end.

(** [statuses.add(v)]: the set as the list of its elements, in the order
    they came in. *)
Definition add_status (statuses : list pyval) (v : pyval) : list pyval :=
  if existsb (py_same v) statuses then statuses else (statuses ++ [v])%list.

(** The loop that fills [statuses]. *)
Fixpoint collect_statuses (infos : list pydict) (statuses : list pyval)
  : result (list pyval) :=
  match infos with
  | [] => Ok statuses
  | info :: rest =>
      let v := dict_get info "session_status" (PStr "unknown") in
      if hashable v then collect_statuses rest (add_status statuses v)
      else Raise TypeError
  end.

(** [final_status] of [main]: the one status all sessions share, [mixed]
    when they differ, [unknown] when there is none. *)
Definition final_status (aggregated : aggregate) : result pyval :=
  statuses ← collect_statuses (dict_values aggregated) [];
  Ok (match statuses with
      | [] => PStr "unknown"
      | [v] => v
      | _ => PStr "mixed"
      end).

(** The status of a record is the string [s]. *)
Definition has_status (s : string) (info : pydict) : Prop :=
  dict_get info "session_status" (PStr "unknown") = PStr s.

(** A set of strings, without repetition. *)
Definition string_set (statuses : list pyval) : Prop :=
  NoDup statuses /\ Forall (fun v => exists s, v = PStr s) statuses.

(** ** The lines of the report *)


(** The first two entries of a report of [n] runs. *)
Definition xml_declaration : string :=
  "<?xml version=" +:+ dquote +:+ "1.0" +:+ dquote
  +:+ " encoding=" +:+ dquote +:+ "UTF-8" +:+ dquote +:+ "?>".

Definition testsuite_tag (n : nat) : string :=
  "<testsuite tests=" +:+ dquote +:+ pretty n +:+ dquote
  +:+ " name=" +:+ dquote +:+ "Verisium Manager" +:+ dquote +:+ ">".

(** * Properties *)

(** ** Conversions, on samples *)

Example py_int_samples :
  py_int (PStr " -1_000 ") = Ok (-1000)%Z
  /\ py_int (PStr "12a") = Raise ValueError
  /\ py_int (PStr "1__0") = Raise ValueError
  /\ py_int (PFloat (FFinite (-7 # 2))) = Ok (-3)%Z
  /\ _safe_int PNone = Ok 0%Z
  /\ _safe_int (PFloat (FInf false)) = Raise OverflowError.
Proof. vm_compute. repeat split. Qed.

(** The separators U+001C to U+001F go with [str.strip] and do not with
    [int]; the spaces U+0085 and U+00A0 go with both. *)
Example int_space_samples :
  strip (String "028"%char "12") = "12"
  /\ py_int (PStr (String "028"%char "12")) = Raise ValueError
  /\ py_int (PStr (String "031"%char "12")) = Raise ValueError
  /\ _safe_int (PStr (String "028"%char "12")) = Ok 0%Z
  /\ py_int (PStr (String "133"%char (String "009"%char "12"
                                        +:+ String "160"%char " ")))
     = Ok 12%Z.
Proof. vm_compute. repeat split. Qed.

Example time_sleep_samples :
  time_sleep 0 = Ok tt
  /\ time_sleep 9223372036 = Ok tt
  /\ time_sleep 9223372037 = Raise OverflowError
  /\ time_sleep (-1) = Raise ValueError
  /\ time_sleep (-9223372037) = Raise OverflowError.
Proof. vm_compute. repeat split. Qed.

Example replace_samples :
  replace "<__SEPARATOR__>" "|" "a<__SEPARATOR__>b<__SEPARATOR__>" = "a|b|"
  /\ replace "aa" "b" "aaa" = "ba"
  /\ strip "  x y  " = "x y".
Proof. vm_compute. repeat split. Qed.

(** ** Rerun detection (the completion tracker) *)

Section Tracker.

Lemma flag_insert_eq (d : gmap string bool) sid b :
  flag (<[sid := b]> d) sid = b.
Proof. unfold flag. by rewrite lookup_insert_eq. Qed.

Lemma flag_insert_ne (d : gmap string bool) sid sid' b :
  sid ≠ sid' -> flag (<[sid := b]> d) sid' = flag d sid'.
Proof. intros Hne. unfold flag. by rewrite lookup_insert_ne. Qed.

Lemma rerun_check_confirms w sid r wt :
  (rerun_check w sid r wt).2 = zero_zero r wt && flag (completed_last_check w) sid.
Proof.
  unfold rerun_check, zero_zero.
  destruct (py_eq_zero r && py_eq_zero wt); simpl; [|done].
  by destruct (flag (completed_last_check w) sid).
Qed.

Lemma rerun_check_final w sid r wt :
  flag (final_state (rerun_check w sid r wt).1) sid
  = zero_zero r wt && flag (completed_last_check w) sid.
Proof.
  unfold rerun_check, zero_zero.
  destruct (py_eq_zero r && py_eq_zero wt); simpl.
  - destruct (flag (completed_last_check w) sid); simpl; apply flag_insert_eq.
  - apply flag_insert_eq.
Qed.

Lemma rerun_check_provisional w sid r wt :
  flag (completed_last_check (rerun_check w sid r wt).1) sid = zero_zero r wt.
Proof.
  unfold rerun_check, zero_zero.
  destruct (py_eq_zero r && py_eq_zero wt); simpl.
  - destruct (flag (completed_last_check w) sid) eqn:E; simpl; [done|].
    apply flag_insert_eq.
  - apply flag_insert_eq.
Qed.

Lemma rerun_check_provisional_other w sid sid' r wt :
  sid ≠ sid' ->
  flag (completed_last_check (rerun_check w sid r wt).1) sid'
  = flag (completed_last_check w) sid'.
Proof.
  intros Hne. unfold rerun_check.
  destruct (py_eq_zero r && py_eq_zero wt); simpl.
  - destruct (flag (completed_last_check w) sid); simpl; [done|].
    by apply flag_insert_ne.
  - by apply flag_insert_ne.
Qed.

Lemma rerun_check_remaining w sid r wt :
  remaining (rerun_check w sid r wt).1 = remaining w
  /\ session_ids (rerun_check w sid r wt).1 = session_ids w.
Proof.
  unfold rerun_check.
  destruct (py_eq_zero r && py_eq_zero wt);
    [destruct (flag (completed_last_check w) sid)|]; done.
Qed.

(** The provisional flag of a session is the zero/zero verdict of its
    latest observation. *)
Lemma track_provisional sid obs : forall w,
  flag (completed_last_check (track w obs)) sid
  = match last_zero sid obs with
    | Some z => z
    | None => flag (completed_last_check w) sid
    end.
Proof.
  induction obs as [|[[s r] wt] rest IH]; intros w; [done|].
  change (track w ((s, r, wt) :: rest))
    with (track (rerun_check w s r wt).1 rest).
  rewrite IH. simpl. destruct (last_zero sid rest); [done|].
  destruct (String.eqb_spec s sid) as [->|Hne].
  - apply rerun_check_provisional.
  - by apply rerun_check_provisional_other.
Qed.

Lemma track_snoc w obs o :
  track w (obs ++ [o]) = (rerun_check (track w obs) o.1.1 o.1.2 o.2).1.
Proof. unfold track. by rewrite fold_left_app. Qed.

End Tracker.

(** C3. Fed any sequence of observations, of any sessions, the tracker
    reports a session confirmed done ([final_state[sid]] true) after an
    observation of it exactly when that observation is zero/zero and the
    session's previous observation was zero/zero too. Hence the first
    zero/zero observation never confirms, a non-zero observation clears
    both flags, and (0,0), (1,0), (0,0) does not confirm on its third
    call. *)
Theorem rerun_check_two_consecutive (ids : list string)
    (obs : list (string * pyval * pyval)) (sid : string) (r wt : pyval) :
  let after := track (new_waiter ids) (obs ++ [(sid, r, wt)])%list in
  (flag (final_state after) sid = true
     <-> zero_zero r wt = true /\ last_zero sid obs = Some true)
  /\ (last_zero sid obs = None -> flag (final_state after) sid = false)
  /\ (zero_zero r wt = false ->
        flag (final_state after) sid = false
        /\ flag (completed_last_check after) sid = false)
  /\ flag (final_state
             (track (new_waiter ids)
                [(sid, PInt 0, PInt 0); (sid, PInt 1, PInt 0);
                 (sid, PInt 0, PInt 0)])) sid = false.
Proof.
  intros after.
  assert (Hfinal : flag (final_state after) sid
                   = zero_zero r wt && default false (last_zero sid obs)).
  { subst after. rewrite track_snoc. cbn [fst snd]. rewrite rerun_check_final.
    rewrite track_provisional. by destruct (last_zero sid obs). }
  assert (Hprov : flag (completed_last_check after) sid = zero_zero r wt).
  { subst after. rewrite track_snoc. apply rerun_check_provisional. }
  repeat split.
  - rewrite Hfinal in H. by apply andb_prop in H as [? _].
  - rewrite Hfinal in H. apply andb_prop in H as [_ H].
    destruct (last_zero sid obs) as [[]|]; done.
  - intros [Hz Hl]. by rewrite Hfinal, Hz, Hl.
  - intros Hl. rewrite Hfinal, Hl. apply andb_false_r.
  - by rewrite Hfinal, H.
  - by rewrite Hprov.
  - change [(sid, PInt 0, PInt 0); (sid, PInt 1, PInt 0); (sid, PInt 0, PInt 0)]
      with ([(sid, PInt 0, PInt 0); (sid, PInt 1, PInt 0)]
              ++ [(sid, PInt 0, PInt 0)])%list.
    rewrite track_snoc. cbn [fst snd]. rewrite rerun_check_final.
    rewrite track_provisional. cbn [last_zero fst snd].
    by rewrite String.eqb_refl.
Qed.

Lemma rerun_check_two_consecutive_witness :
  flag (final_state (track (new_waiter ["s"])
          ([("s", PInt 0, PInt 0)] ++ [("s", PBool false, PInt 0)])%list))
       "s" = true.
Proof.
  apply (rerun_check_two_consecutive ["s"] [("s", PInt 0, PInt 0)] "s"
           (PBool false) (PInt 0)).
  split; reflexivity.
Defined.

(** ** The sweep and the loop *)

Section Loop.

Variable cfg : Config.

(** A sweep over [pre ++ post] is the sweep over [pre] and, when that
    one reaches its end, the sweep over [post] from where it stands. *)
Lemma sweep_app f : forall pre post i w agg,
  sweep cfg f i (pre ++ post)%list w agg =
  match sweep cfg f i pre w agg with
  | (tr, Next w' agg') =>
      let '(tr', r) := sweep cfg f (i + length pre) post w' agg' in
      ((tr ++ tr')%list, r)
  | other => other
  end.
Proof.
  induction pre as [|sid pre IH]; intros post i w agg.
  - cbn [app sweep length]. rewrite Nat.add_0_r.
    by destruct (sweep cfg f i post w agg).
  - cbn [app sweep length].
    destruct (poll_session cfg sid (f i) w agg) as [w' agg'| | |]; try done.
    rewrite IH. replace (S i + length pre) with (i + S (length pre)) by lia.
    destruct (sweep cfg f (S i) pre w' agg') as [tr [w2 agg2| | |]]; try done.
    by destruct (sweep cfg f (i + S (length pre)) post w2 agg2).
Qed.

(** The session reached once the sessions before it are through. *)
Lemma sweep_reach f pre sid post w agg tr w1 agg1 :
  sweep cfg f 0 pre w agg = (tr, Next w1 agg1) ->
  sweep cfg f 0 (pre ++ sid :: post)%list w agg =
  match poll_session cfg sid (f (length pre)) w1 agg1 with
  | Next w' agg' =>
      let '(tr', r) := sweep cfg f (S (length pre)) post w' agg' in
      ((tr ++ EvFetch sid :: tr')%list, r)
  | r => ((tr ++ [EvFetch sid])%list, r)
  end.
Proof.
  intros Hpre. rewrite sweep_app, Hpre. cbn [Nat.add sweep].
  destruct (poll_session cfg sid (f (length pre)) w1 agg1); try done.
  by destruct (sweep cfg f (S (length pre)) post w0 agg0).
Qed.

(** [time.sleep] returns for the lengths from 0 to [max_sleep]. *)
Lemma time_sleep_returns secs :
  time_sleep secs = Ok tt <-> (0 <= secs <= max_sleep)%Z.
Proof.
  unfold time_sleep.
  destruct (Z.ltb_spec secs (- max_sleep)), (Z.ltb_spec max_sleep secs),
    (Z.ltb_spec secs 0); unfold max_sleep in *; cbn; split; try done; lia.
Qed.

Lemma time_sleep_too_long secs :
  (max_sleep < secs)%Z -> time_sleep secs = Raise OverflowError.
Proof.
  unfold time_sleep. intros H. apply Z.ltb_lt in H. rewrite H.
  by rewrite orb_true_r.
Qed.

(** One turn of the loop that does not time out, for a length of sleep
    that is not negative. *)
Lemma wait_loop_turn p rest w agg :
  timeout_fires cfg (elapsed p) = false ->
  (0 <= poll_interval cfg)%Z ->
  wait_loop cfg (p :: rest) w agg =
  after_sleep cfg
    (let '(tr, r) := sweep cfg (fetch p) 0 (session_ids w) w agg in
     match r with
     | Halt success _ agg' =>
         (EvSleep (poll_interval cfg) :: tr, Returned success agg')
     | Fault e => (EvSleep (poll_interval cfg) :: tr, Raised e)
     | Next w' agg' | Break w' agg' =>
         let '(tr', o) := wait_loop cfg rest w' agg' in
         (EvSleep (poll_interval cfg) :: (tr ++ tr')%list, o)
     end).
Proof.
  intros Ht Hp. cbn [wait_loop]. rewrite Ht. unfold after_sleep.
  destruct (Z.ltb_spec max_sleep (poll_interval cfg)) as [Hlong|Hshort].
  - by rewrite time_sleep_too_long.
  - by rewrite (proj2 (time_sleep_returns _)) by lia.
Qed.


(** A sweep halted at a session ends the wait with that verdict. *)
Lemma wait_loop_halt p rest w agg pre sid post tr w1 agg1 success w2 agg2 :
  timeout_fires cfg (elapsed p) = false ->
  (0 <= poll_interval cfg)%Z ->
  session_ids w = (pre ++ sid :: post)%list ->
  sweep cfg (fetch p) 0 pre w agg = (tr, Next w1 agg1) ->
  poll_session cfg sid (fetch p (length pre)) w1 agg1 = Halt success w2 agg2 ->
  wait_loop cfg (p :: rest) w agg
  = after_sleep cfg
      (EvSleep (poll_interval cfg) :: (tr ++ [EvFetch sid])%list,
       Returned success agg2).
Proof.
  intros Ht Hp Hids Hpre Hstep.
  rewrite wait_loop_turn by done.
  by rewrite Hids, (sweep_reach _ _ _ _ _ _ _ _ _ Hpre), Hstep.
Qed.





End Loop.

(** ** The timeout *)



(** ** A session deleted upstream *)

(** An answer that is not a non-empty list leaves no status record. *)
Lemma get_session_status_absent (x : exchange) :
  x = Responded BodyBlank \/ x = Responded (BodyJson (PList [])) ->
  get_session_status x = Got (PDict []).
Proof. by intros [-> | ->]. Qed.

(** C7. When, in a sweep, the fetch for a session comes back with an
    empty status record (any value Python counts as false), the wait
    returns [False] there: the sessions after it in the sweep are not
    fetched and no later turn of the loop takes place. The sweep is the
    one of a turn whose sleep is through: a poll interval that
    [time.sleep] cannot count makes the wait raise before it. *)
Theorem deleted_session_fails (cfg : Config) (p : poll) (rest : list poll)
    (w : SessionWaiter) (agg : aggregate)
    (pre post : list string) (sid : string) (tr : list event)
    (w1 : SessionWaiter) (agg1 : aggregate) (info : pyval) :
  timeout_fires cfg (elapsed p) = false ->
  (0 <= poll_interval cfg)%Z ->
  session_ids w = (pre ++ sid :: post)%list ->
  sweep cfg (fetch p) 0 pre w agg = (tr, Next w1 agg1) ->
  get_session_status (fetch p (length pre)) = Got info ->
  py_truthy info = false ->
  wait_loop cfg (p :: rest) w agg
  = after_sleep cfg
      (EvSleep (poll_interval cfg) :: (tr ++ [EvFetch sid])%list,
       Returned false agg1).
Proof.
  intros Ht Hp Hids Hpre Hget Hempty.
  eapply wait_loop_halt; eauto.
  unfold poll_session. by rewrite Hget, Hempty.
Qed.

Lemma deleted_session_fails_witness :
  wait_loop default_config
    [{| elapsed := 0;
        fetch := fun i => match i with
                          | 0 => status_record "running" 1 0
                          | _ => deleted
                          end |}]
    (new_waiter ["a"; "b"; "c"]) []
  = ([EvSleep 60; EvFetch "a"; EvFetch "b"],
     Returned false
       [("a", [("session_status", PStr "running"); ("running", PInt 1);
               ("waiting", PInt 0)])]).
Proof.
  eapply (deleted_session_fails default_config _ [] (new_waiter ["a"; "b"; "c"]) []
            ["a"] ["c"] "b" [EvFetch "a"]).
  - reflexivity.
  - vm_compute. discriminate.
  - reflexivity.
  - reflexivity.
  - reflexivity.
  - reflexivity.
Defined.

(** ** Fetch failures *)

(** C4, as amended. A fetch ended by an exception other than [VAPIError]
    abandons the rest of the sweep, and the loop goes on with its next
    turn. A fetch ended by [VAPIError], which is what the client makes of
    an [HTTPError] and of a [URLError], skips that session only: the sweep
    goes on with the sessions after it, from an unchanged state. Neither
    is a verdict of the wait. The turn is one whose sleep is through: a
    poll interval that [time.sleep] cannot count makes the wait raise
    before the sweep. *)
Theorem fetch_failure_tolerated (cfg : Config) (p : poll) (rest : list poll)
    (w : SessionWaiter) (agg : aggregate)
    (pre post : list string) (sid : string) (tr : list event)
    (w1 : SessionWaiter) (agg1 : aggregate) :
  timeout_fires cfg (elapsed p) = false ->
  (0 <= poll_interval cfg)%Z ->
  session_ids w = (pre ++ sid :: post)%list ->
  sweep cfg (fetch p) 0 pre w agg = (tr, Next w1 agg1) ->
  (fetch p (length pre) = OtherFailure ->
     wait_loop cfg (p :: rest) w agg
     = after_sleep cfg (abandoned_at cfg rest sid tr w1 agg1))
  /\ ((exists code err_body, fetch p (length pre) = HTTPError code err_body)
      \/ (exists reason, fetch p (length pre) = URLError reason) ->
      sweep cfg (fetch p) 0 (session_ids w) w agg
      = let '(tr', r) := sweep cfg (fetch p) (S (length pre)) post w1 agg1 in
        ((tr ++ EvFetch sid :: tr')%list, r)).
Proof.
  intros Ht Hp Hids Hpre. split.
  - intros Hx. rewrite wait_loop_turn by done.
    rewrite Hids, (sweep_reach cfg _ _ sid post _ _ _ _ _ Hpre).
    unfold poll_session, abandoned_at. rewrite Hx. cbn.
    destruct (wait_loop cfg rest w1 agg1) as [tr' o].
    by rewrite <- app_assoc.
  - intros Hx. rewrite Hids, (sweep_reach cfg _ _ sid post _ _ _ _ _ Hpre).
    unfold poll_session.
    by destruct Hx as [(code & err_body & ->) | (reason & ->)].
Qed.

Lemma fetch_failure_tolerated_witness :
  wait_loop default_config [broken_then_deleted] (new_waiter ["a"; "b"]) []
  = ([EvSleep 60; EvFetch "a"], Polling (new_waiter ["a"; "b"]) [])
  /\ sweep default_config (fetch flaky_then_deleted) 0 ["a"; "b"]
       (new_waiter ["a"; "b"]) []
     = ([EvFetch "a"; EvFetch "b"], Halt false (new_waiter ["a"; "b"]) []).
Proof.
  split.
  - apply (fetch_failure_tolerated default_config broken_then_deleted []
             (new_waiter ["a"; "b"]) [] [] ["b"] "a" []
             (new_waiter ["a"; "b"]) []);
      try reflexivity.
    vm_compute. discriminate.
  - apply (fetch_failure_tolerated default_config flaky_then_deleted []
             (new_waiter ["a"; "b"]) [] [] ["b"] "a" []
             (new_waiter ["a"; "b"]) []);
      try reflexivity.
    + vm_compute. discriminate.
    + right. by exists "refused".
Defined.

(** C4 as the specification states it fails: with the first of two
    sessions unreachable ([URLError]) the sweep still fetches the second
    one, which here is gone, and the wait returns [False] in that turn. *)
Lemma transport_failure_sweep_goes_on :
  ~ (forall cfg p rest w agg pre post sid tr w1 agg1,
       timeout_fires cfg (elapsed p) = false ->
       (0 <= poll_interval cfg)%Z ->
       session_ids w = (pre ++ sid :: post)%list ->
       sweep cfg (fetch p) 0 pre w agg = (tr, Next w1 agg1) ->
       transport_failure (fetch p (length pre)) = true ->
       wait_loop cfg (p :: rest) w agg = abandoned_at cfg rest sid tr w1 agg1).
Proof.
  intros Hclaim.
  specialize (Hclaim default_config flaky_then_deleted [] (new_waiter ["a"; "b"]) []
                [] ["b"] "a" [] (new_waiter ["a"; "b"]) []).
  assert (Hrun : wait_loop default_config [flaky_then_deleted]
                   (new_waiter ["a"; "b"]) []
                 = ([EvSleep 60; EvFetch "a"; EvFetch "b"], Returned false []))
    by reflexivity.
  rewrite Hrun in Hclaim.
  discriminate Hclaim; try reflexivity.
  vm_compute. discriminate.
Qed.

(** ** Resolvers and the confirmed [failed] session *)

Section Verdict.

Variable cfg : Config.

Lemma remove_first_absent sid rem : sid ∉ rem -> remove_first sid rem = rem.
Proof.
  induction rem as [|y rem IH]; [done|]. intros Hnot. cbn.
  destruct (String.eqb_spec y sid) as [->|Hne].
  - exfalso. apply Hnot. left.
  - f_equal. apply IH. intros Hin. apply Hnot. by right.
Qed.

Lemma check_all_done_verdict w sid :
  (_check_all_done w sid).2
  = if flag (final_state w) sid then last_remaining sid (remaining w)
    else Nat.eqb (length (remaining w)) 0.
Proof.
  unfold _check_all_done, last_remaining.
  destruct (flag (final_state w) sid); [|done].
  case_bool_decide as Hin; [done|]. by rewrite remove_first_absent.
Qed.

Lemma get_resolver_fail_not_completed state :
  _get_resolver cfg state = Ok "fail" -> py_eq_str state "completed" = false.
Proof.
  destruct state as [| | | |s| |]; try done. cbn.
  destruct (String.eqb_spec s "completed") as [->|]; [|done]. done.
Qed.

Lemma apply_resolver_fail sid state w agg :
  _get_resolver cfg state = Ok "fail" ->
  apply_resolver cfg sid state w agg = Halt false w agg.
Proof.
  intros Hres. unfold apply_resolver.
  by rewrite Hres, (get_resolver_fail_not_completed _ Hres).
Qed.

Lemma examine_unfold sid info w agg :
  let state := dict_get info "session_status" (PStr "unknown") in
  exists w1,
    remaining w1 = remaining w
    /\ flag (final_state w1) sid = confirms info w sid
    /\ examine cfg sid info w agg =
       if confirms info w sid && py_eq_str state "failed" then
         if last_remaining sid (remaining w)
         then Halt true (_check_all_done w1 sid).1 (dict_set agg sid info)
         else apply_resolver cfg sid state (_check_all_done w1 sid).1
                (dict_set agg sid info)
       else apply_resolver cfg sid state w1 (dict_set agg sid info).
Proof.
  intros state. unfold examine. fold state.
  set (name := dict_get info "name" (PStr sid)).
  set (r := dict_get info "running" (PInt 0)).
  set (wt := dict_get info "waiting" (PInt 0)).
  pose proof (rerun_check_confirms (set_name sid name w) sid r wt) as Hc.
  pose proof (rerun_check_final (set_name sid name w) sid r wt) as Hf.
  pose proof (rerun_check_remaining (set_name sid name w) sid r wt) as [Hr _].
  destruct (rerun_check (set_name sid name w) sid r wt) as [w1 c].
  cbn [fst snd set_name completed_last_check remaining] in Hc, Hf, Hr.
  exists w1. split; [done|]. split; [done|].
  unfold confirms. fold r wt. rewrite <- Hc.
  destruct (c && py_eq_str state "failed") eqn:Hboth; [|done].
  pose proof (check_all_done_verdict w1 sid) as Hv.
  apply andb_prop in Hboth as [-> _]. rewrite Hf, <- Hc, Hr in Hv.
  destruct (_check_all_done w1 sid) as [w2 done']. cbn [fst snd] in *.
  by rewrite Hv.
Qed.

End Verdict.

Lemma apply_resolver_never_fails (cfg : Config) sid state w agg resolver :
  _get_resolver cfg state = Ok resolver ->
  resolver <> "fail" ->
  forall success w' agg',
    apply_resolver cfg sid state w agg = Halt success w' agg' -> success = true.
Proof.
  intros Hres Hne success w' agg'. unfold apply_resolver. rewrite Hres.
  destruct (String.eqb_spec resolver "fail") as [->|_]; [done|].
  destruct (_check_all_done w sid) as [w2 done'].
  destruct (py_eq_str state "completed"), (String.eqb resolver "continue"),
    done'; congruence.
Qed.

Lemma poll_session_record (cfg : Config) sid x info w agg :
  get_session_status x = Got (PDict info) ->
  info <> [] ->
  poll_session cfg sid x w agg = examine cfg sid info w agg.
Proof.
  intros Hget Hinfo. unfold poll_session. rewrite Hget.
  by destruct info.
Qed.

(** C2, as amended. When the state of a fetched session resolves to
    [fail], the wait returns at that session, without fetching the ones
    after it, and returns [False] whatever the other sessions are, with one
    exception: a session in state [failed] that this observation confirms
    done and that is the last one remaining makes the wait return [True].
    The sweep is the one of a turn whose sleep is through: a poll interval
    that [time.sleep] cannot count makes the wait raise before it. *)
Theorem fail_resolver_verdict (cfg : Config) (p : poll) (rest : list poll)
    (w : SessionWaiter) (agg : aggregate)
    (pre post : list string) (sid : string) (tr : list event)
    (w1 : SessionWaiter) (agg1 : aggregate) (info : pydict) :
  timeout_fires cfg (elapsed p) = false ->
  (0 <= poll_interval cfg)%Z ->
  session_ids w = (pre ++ sid :: post)%list ->
  sweep cfg (fetch p) 0 pre w agg = (tr, Next w1 agg1) ->
  get_session_status (fetch p (length pre)) = Got (PDict info) ->
  info <> [] ->
  _get_resolver cfg (dict_get info "session_status" (PStr "unknown")) = Ok "fail" ->
  wait_loop cfg (p :: rest) w agg
  = after_sleep cfg
      (EvSleep (poll_interval cfg) :: (tr ++ [EvFetch sid])%list,
       Returned
         (confirms info w1 sid
          && py_eq_str (dict_get info "session_status" (PStr "unknown")) "failed"
          && last_remaining sid (remaining w1))
         (dict_set agg1 sid info)).
Proof.
  intros Ht Hp Hids Hpre Hget Hinfo Hres.
  destruct (examine_unfold cfg sid info w1 agg1) as (w2 & _ & _ & Hex).
  cbn zeta in Hex.
  destruct (confirms info w1 sid
            && py_eq_str (dict_get info "session_status" (PStr "unknown")) "failed");
    [destruct (last_remaining sid (remaining w1))|];
    try rewrite (apply_resolver_fail cfg _ _ _ _ Hres) in Hex;
    eapply wait_loop_halt; eauto;
    by rewrite (poll_session_record cfg _ _ info) by done.
Qed.

Lemma fail_resolver_verdict_witness :
  wait_loop default_config
    [{| elapsed := 0;
        fetch := fun i => match i with
                          | 0 => status_record "completed" 0 0
                          | _ => status_record "failed" 0 0
                          end |}]
    (new_waiter ["a"; "b"; "c"]) []
  = ([EvSleep 60; EvFetch "a"; EvFetch "b"],
     Returned false
       [("a", [("session_status", PStr "completed"); ("running", PInt 0);
               ("waiting", PInt 0)]);
        ("b", [("session_status", PStr "failed"); ("running", PInt 0);
               ("waiting", PInt 0)])]).
Proof.
  apply (fail_resolver_verdict default_config _ [] (new_waiter ["a"; "b"; "c"]) []
           ["a"] ["c"] "b" [EvFetch "a"]
           (set_final_state "a" false
              (set_completed_last_check "a" true
                 (set_name "a" (PStr "a") (new_waiter ["a"; "b"; "c"]))))
           [("a", [("session_status", PStr "completed"); ("running", PInt 0);
                   ("waiting", PInt 0)])]
           [("session_status", PStr "failed"); ("running", PInt 0);
            ("waiting", PInt 0)]).
  - reflexivity.
  - vm_compute. discriminate.
  - reflexivity.
  - reflexivity.
  - reflexivity.
  - discriminate.
  - reflexivity.
Defined.

(** C2 as the specification states it fails: with the default resolvers,
    where [failed] resolves to [fail], a session seen idle with no active
    run and then [failed], next to a session that is [completed], ends the
    wait with [True]. *)
Lemma failed_next_to_completed_succeeds :
  _get_resolver default_config (PStr "failed") = Ok "fail"
  /\ wait default_config ["a"; "b"] [completed_and_idle; completed_and_failed]
     = ([EvSleep 60; EvFetch "a"; EvFetch "b";
         EvSleep 60; EvFetch "a"; EvFetch "b"],
        Returned true
          [("a", [("session_status", PStr "completed"); ("running", PInt 0);
                  ("waiting", PInt 0)]);
           ("b", [("session_status", PStr "failed"); ("running", PInt 0);
                  ("waiting", PInt 0)])]).
Proof. split; reflexivity. Qed.

(** C1, as amended. A session fetched in state [failed] whose zero/zero
    status this observation confirms (its previous observation was
    zero/zero too) makes the wait return [True] when it is the last one
    remaining, whatever the resolver of [failed] is. When other sessions
    remain, the resolver decides: [fail] makes the wait return [False];
    any other one never does. The sweep is the one of a turn whose sleep
    is through: a poll interval that [time.sleep] cannot count makes the
    wait raise before it. *)
Theorem confirmed_failed_session (cfg : Config) (p : poll) (rest : list poll)
    (w : SessionWaiter) (agg : aggregate)
    (pre post : list string) (sid : string) (tr : list event)
    (w1 : SessionWaiter) (agg1 : aggregate) (info : pydict) :
  timeout_fires cfg (elapsed p) = false ->
  (0 <= poll_interval cfg)%Z ->
  session_ids w = (pre ++ sid :: post)%list ->
  sweep cfg (fetch p) 0 pre w agg = (tr, Next w1 agg1) ->
  get_session_status (fetch p (length pre)) = Got (PDict info) ->
  dict_get info "session_status" (PStr "unknown") = PStr "failed" ->
  confirms info w1 sid = true ->
  (last_remaining sid (remaining w1) = true ->
     wait_loop cfg (p :: rest) w agg
     = after_sleep cfg
         (EvSleep (poll_interval cfg) :: (tr ++ [EvFetch sid])%list,
          Returned true (dict_set agg1 sid info)))
  /\ (last_remaining sid (remaining w1) = false ->
      failed_resolver cfg = "fail" ->
      wait_loop cfg (p :: rest) w agg
      = after_sleep cfg
          (EvSleep (poll_interval cfg) :: (tr ++ [EvFetch sid])%list,
           Returned false (dict_set agg1 sid info)))
  /\ (last_remaining sid (remaining w1) = false ->
      failed_resolver cfg <> "fail" ->
      forall success w2 agg2,
        poll_session cfg sid (fetch p (length pre)) w1 agg1
        = Halt success w2 agg2 ->
        success = true).
Proof.
  intros Ht Hp Hids Hpre Hget Hstate Hconf.
  assert (Hinfo : info <> []) by (by destruct info).
  assert (Hres : _get_resolver cfg (PStr "failed") = Ok (failed_resolver cfg))
    by reflexivity.
  destruct (examine_unfold cfg sid info w1 agg1) as (w2 & _ & _ & Hex).
  cbn zeta in Hex. rewrite Hstate, Hconf in Hex. cbn [py_eq_str andb] in Hex.
  change (String.eqb "failed" "failed") with true in Hex. cbn iota in Hex.
  repeat split.
  - intros Hlast. rewrite Hlast in Hex.
    eapply wait_loop_halt; eauto.
    by rewrite (poll_session_record cfg _ _ info) by done.
  - intros Hlast Hfail. rewrite Hlast in Hex. rewrite Hfail in Hres.
    rewrite (apply_resolver_fail cfg _ _ _ _ Hres) in Hex.
    eapply wait_loop_halt; eauto.
    by rewrite (poll_session_record cfg _ _ info) by done.
  - intros Hlast Hne success w3 agg3. rewrite Hlast in Hex.
    rewrite (poll_session_record cfg _ _ info) by done. rewrite Hex.
    apply (apply_resolver_never_fails cfg _ _ _ _ _ Hres Hne).
Qed.

Lemma confirmed_failed_session_witness :
  wait_loop default_config
    [{| elapsed := 60; fetch := fun _ => status_record "failed" 0 0 |}]
    (set_final_state "s" false
       (set_completed_last_check "s" true
          (set_name "s" (PStr "s") (new_waiter ["s"]))))
    [("s", [("session_status", PStr "running"); ("running", PInt 0);
            ("waiting", PInt 0)])]
  = ([EvSleep 60; EvFetch "s"],
     Returned true
       [("s", [("session_status", PStr "failed"); ("running", PInt 0);
               ("waiting", PInt 0)])]).
Proof.
  apply (confirmed_failed_session default_config
           {| elapsed := 60; fetch := fun _ => status_record "failed" 0 0 |} []
           (set_final_state "s" false
              (set_completed_last_check "s" true
                 (set_name "s" (PStr "s") (new_waiter ["s"]))))
           [("s", [("session_status", PStr "running"); ("running", PInt 0);
                   ("waiting", PInt 0)])]
           [] [] "s" []
           (set_final_state "s" false
              (set_completed_last_check "s" true
                 (set_name "s" (PStr "s") (new_waiter ["s"]))))
           [("s", [("session_status", PStr "running"); ("running", PInt 0);
                   ("waiting", PInt 0)])]
           [("session_status", PStr "failed"); ("running", PInt 0);
            ("waiting", PInt 0)]).
  - reflexivity.
  - vm_compute. discriminate.
  - reflexivity.
  - reflexivity.
  - reflexivity.
  - reflexivity.
  - reflexivity.
  - reflexivity.
Defined.

(** C1 as the specification states it fails: under the default resolver
    [fail] for [failed], a lone session seen idle with no active run and
    then [failed], again with none, ends the wait with [True]. *)
Lemma lone_failed_session_succeeds :
  failed_resolver default_config = "fail"
  /\ wait default_config ["s"] [idle; failed_twice_idle]
     = ([EvSleep 60; EvFetch "s"; EvSleep 60; EvFetch "s"],
        Returned true
          [("s", [("session_status", PStr "failed"); ("running", PInt 0);
                  ("waiting", PInt 0)])]).
Proof. split; reflexivity. Qed.

(** ** Run statistics *)

Section Stats.

Lemma safe_int_raises v e : _safe_int v = Raise e -> e = OverflowError.
Proof.
  unfold _safe_int. destruct (py_int v) as [z|[]] eqn:E; try done.
  - by intros [= <-].
  - destruct v as [| | |[]| | |]; try done. cbn in E.
    by destruct (parse_int_literal s).
Qed.

Lemma add_info_contribution t info :
  add_info t info
  = match contribution info with
    | Ok c => Ok (add_totals t c)
    | Raise e => Raise e
    end.
Proof.
  unfold add_info, contribution, mbind, result_bind.
  repeat match goal with
         | |- context [_safe_int ?v] => destruct (_safe_int v); [|done]
         end.
  done.
Qed.

Lemma contribution_raises info e :
  contribution info = Raise e -> e = OverflowError.
Proof.
  unfold contribution, mbind, result_bind.
  repeat match goal with
         | |- context [_safe_int ?v] =>
             let E := fresh in
             destruct (_safe_int v) eqn:E;
             [|intros [= <-]; by eapply safe_int_raises]
         end.
  done.
Qed.

Lemma add_totals_swap t c1 c2 :
  add_totals (add_totals t c1) c2 = add_totals (add_totals t c2) c1.
Proof. unfold add_totals. cbn. f_equal; lia. Qed.

Lemma sum_infos_permutation l l' :
  l ≡ₚ l' -> forall t, sum_infos l t = sum_infos l' t.
Proof.
  induction 1 as [|x l l' _ IH|x y l|l l' l'' _ IH1 _ IH2]; intros t.
  - done.
  - cbn. destruct (add_info t x); [apply IH|done].
  - cbn. rewrite !add_info_contribution.
    destruct (contribution x) as [cx|ex] eqn:Ex,
             (contribution y) as [cy|ey] eqn:Ey;
      rewrite ?add_info_contribution, ?Ex, ?Ey; try done.
    + by rewrite add_totals_swap.
    + by rewrite (contribution_raises _ _ Ex), (contribution_raises _ _ Ey).
  - by rewrite IH1.
Qed.

Lemma safe_int_non_numeric v : non_numeric v = true -> _safe_int v = Ok 0%Z.
Proof.
  destruct v as [| | |f|s| |]; try done. cbn. unfold _safe_int. cbn.
  by destruct (parse_int_literal s).
Qed.

Lemma safe_int_malformed info key :
  malformed info key = true -> _safe_int (dict_get info key (PInt 0)) = Ok 0%Z.
Proof.
  unfold malformed, dict_get. destruct (dict_lookup info key); [|done].
  apply safe_int_non_numeric.
Qed.

Lemma safe_int_raises_iff v e :
  _safe_int v = Raise e
  <-> e = OverflowError /\ exists negative, v = PFloat (FInf negative).
Proof.
  split.
  - unfold _safe_int. destruct v as [| | |[q|negative|]|s| |]; cbn; try done.
    + intros [= <-]. eauto.
    + by destruct (parse_int_literal s).
  - by intros [-> [negative ->]].
Qed.

Lemma dict_get_infinity (info : pydict) key negative :
  dict_get info key (PInt 0) = PFloat (FInf negative)
  <-> dict_lookup info key = Some (PFloat (FInf negative)).
Proof. unfold dict_get. destruct (dict_lookup info key); split; congruence. Qed.

(** A record aborts the aggregation exactly when one of its six fields is
    a float infinity. *)
Lemma contribution_raises_iff info e :
  contribution info = Raise e <-> e = OverflowError /\ infinite_field info.
Proof.
  split.
  - intros H. split; [by eapply contribution_raises|]. revert H.
    unfold contribution, mbind, result_bind.
    repeat match goal with
           | |- context [_safe_int (dict_get info ?k (PInt 0))] =>
               let E := fresh "E" in
               destruct (_safe_int (dict_get info k (PInt 0))) eqn:E;
               [|intros _; apply safe_int_raises_iff in E as [_ [negative Hv]];
                 apply dict_get_infinity in Hv; exists k, negative;
                 split; [cbn; tauto|done]]
           end.
    done.
  - intros [-> (key & negative & Hin & Hl)].
    destruct (contribution info) as [c|e'] eqn:E;
      [|f_equal; by eapply contribution_raises].
    exfalso. revert E. apply dict_get_infinity in Hl.
    unfold contribution, mbind, result_bind. cbn in Hin.
    destruct Hin as [<-|[<-|[<-|[<-|[<-|[<-|[]]]]]]]; rewrite Hl;
      change (_safe_int (PFloat (FInf negative))) with (@Raise Z OverflowError);
      repeat match goal with
             | |- context [match _safe_int ?v with _ => _ end] =>
                 destruct (_safe_int v); [|done]
             end; done.
Qed.

End Stats.

Lemma sum_infos_raises (infos : list pydict) : forall t e,
  sum_infos infos t = Raise e
  <-> e = OverflowError /\ Exists infinite_field infos.
Proof.
  induction infos as [|info rest IH]; intros t e; cbn [sum_infos].
  - split; [done|]. intros [_ H]. inversion H.
  - rewrite add_info_contribution.
    destruct (contribution info) as [c|e'] eqn:E.
    + rewrite IH. split; intros [-> H]; (split; [done|]).
      * by apply Exists_cons_tl.
      * inversion H as [? ? Hinf|]; subst; [|done]. exfalso.
        assert (contribution info = Raise OverflowError)
          by (by apply contribution_raises_iff).
        congruence.
    + apply contribution_raises_iff in E as [-> Hinf]. split.
      * intros [= <-]. split; [done|]. by apply Exists_cons_hd.
      * by intros [-> _].
Qed.

Lemma malformed_adds_zero (info : pydict) (key : string) (proj : totals -> Z)
    (t t' : totals) :
  In (key, proj) stat_fields ->
  malformed info key = true ->
  add_info t info = Ok t' ->
  proj t' = proj t.
Proof.
  intros Hin Hbad. rewrite add_info_contribution.
  destruct (contribution info) as [c|] eqn:Ec; [|done]. intros [= <-].
  assert (Hzero : proj c = 0%Z).
  { pose proof (safe_int_malformed info key Hbad) as Hz.
    revert Ec. unfold contribution, mbind, result_bind.
    cbn in Hin.
    destruct Hin as [[= <- <-]|[[= <- <-]|[[= <- <-]|[[= <- <-]|[[= <- <-]|
                    [[= <- <-]|[]]]]]]];
      rewrite ?Hz;
      repeat match goal with
             | |- context [match _safe_int ?v with _ => _ end] =>
                 destruct (_safe_int v); [|done]
             end;
      by intros [= <-]. }
  cbn in Hin.
  destruct Hin as [[= <- <-]|[[= <- <-]|[[= <- <-]|[[= <- <-]|[[= <- <-]|
                  [[= <- <-]|[]]]]]]]; cbn in *; lia.
Qed.

(** C8. The totals do not depend on the order of the session records: a
    permutation of the collection gives the same result. A field that is
    missing, or whose value is not a number, adds zero to its total and
    raises nothing itself. But the aggregation is not total: a field that
    is a float infinity makes [int] raise [OverflowError], which the
    [except (ValueError, TypeError)] of [_safe_int] lets through, and no
    totals are returned. This is the only way: the aggregation raises
    exactly when one of the six fields of some record is such a float, and
    a record with a malformed field is given up only for another field of
    it. *)
Theorem get_aggregated_stats_infinite_field (a a' : aggregate) :
  get_aggregated_stats
    [("s1", [("total_runs_in_session", PInt 5);
             ("passed_runs", PFloat (FInf false))])]
  = Raise OverflowError
  /\ (forall e,
        get_aggregated_stats a = Raise e
        <-> e = OverflowError /\ Exists (fun rec => infinite_field rec.2) a)
  /\ (a ≡ₚ a' -> get_aggregated_stats a = get_aggregated_stats a')
  /\ (forall info key proj t,
        In (key, proj) stat_fields ->
        malformed info key = true ->
        _safe_int (dict_get info key (PInt 0)) = Ok 0%Z
        /\ match add_info t info with
           | Ok t' => proj t' = proj t
           | Raise _ =>
               exists key' negative,
                 In key' (map fst stat_fields)
                 /\ key' <> key
                 /\ dict_lookup info key' = Some (PFloat (FInf negative))
           end).
Proof.
  split; [done|]. split; [|split].
  - intros e. unfold get_aggregated_stats, dict_values.
    rewrite sum_infos_raises, !Exists_exists. split.
    + intros [-> (info & Hin & Hinf)].
      apply list_elem_of_fmap in Hin as (rec & -> & Hin).
      split; [done|]. by exists rec.
    + intros [-> (rec & Hin & Hinf)]. split; [done|]. exists rec.2.
      split; [|done]. apply list_elem_of_fmap. by exists rec.
  - intros Hperm. unfold get_aggregated_stats, dict_values.
    apply sum_infos_permutation. by apply Permutation_map.
  - intros info key proj t Hin Hbad. split; [by apply safe_int_malformed|].
    destruct (add_info t info) as [t'|e] eqn:E.
    + by apply (malformed_adds_zero info key proj t t').
    + rewrite add_info_contribution in E.
      destruct (contribution info) as [c|e'] eqn:Ec; [done|].
      apply contribution_raises_iff in Ec as [_ (key' & negative & Hin' & Hl)].
      exists key', negative. split; [done|]. split; [|done].
      intros ->. unfold malformed in Hbad. by rewrite Hl in Hbad.
Qed.

Lemma get_aggregated_stats_infinite_field_witness :
  get_aggregated_stats sample_stats = get_aggregated_stats (rev sample_stats)
  /\ get_aggregated_stats sample_stats
     = Ok {| total_runs := 15; passed := 7; failed := 4; running := 0;
             waiting := 0; other := 0 |}
  /\ _safe_int (dict_get [("passed_runs", PStr "n/a")] "passed_runs" (PInt 0))
     = Ok 0%Z.
Proof.
  destruct (get_aggregated_stats_infinite_field sample_stats (rev sample_stats))
    as (_ & _ & Hperm & Hbad).
  split; [|split].
  - apply Hperm. apply Permutation_rev.
  - reflexivity.
  - apply (Hbad [("passed_runs", PStr "n/a")] "passed_runs" passed zero_totals).
    + simpl. tauto.
    + reflexivity.
Defined.

(** ** Test cases by status *)

Lemma append_assoc (a b c : string) : (a +:+ b) +:+ c = a +:+ (b +:+ c).
Proof.
  induction a as [|x a IH]; [done|].
  change (String x ((a +:+ b) +:+ c) = String x (a +:+ (b +:+ c))).
  by rewrite IH.
Qed.

(** The lines of one run go by its status, once its duration is
    converted. *)
Lemma testcase_lines_by_status (py_repr : pyval -> string) (run : pydict)
    (extra_attrs : list string) (attr_labels : pydict) (no_append_seed : bool) :
  let status := dict_get run "status" (PStr "NA") in
  let test_group := _xml_safe py_repr (dict_get run "test_group" (PStr "NA")) in
  let name := full_name py_repr run no_append_seed in
  let lines := testcase_lines py_repr run extra_attrs attr_labels no_append_seed in
  (status_in status ["failed"; "stopped"; "running"; "other"; "waiting"] = false ->
     lines = d ← run_duration run; Ok [testcase_tag test_group name d "/>"])
  /\ (status = PStr "failed" ->
      dict_lookup run "first_failure_name" = None ->
      lines = d ← run_duration run;
              Ok [testcase_tag test_group name d ">";
                  "      <failure message=" +:+ dquote +:+ "RUN_STILL_IN_PROGRESS"
                  +:+ dquote +:+ " type=" +:+ dquote +:+ "RUN_STILL_IN_PROGRESS"
                  +:+ dquote +:+ ">"
                  +:+ failure_body py_repr run extra_attrs attr_labels
                  +:+ "</failure>";
                  "    </testcase>"])
  /\ (status_in status ["stopped"; "running"; "other"; "waiting"] = true ->
      lines = d ← run_duration run;
              Ok [testcase_tag test_group name d ">";
                  "      <skipped />";
                  "    </testcase>"]).
Proof.
  intros status test_group name lines. subst lines. unfold testcase_lines.
  fold status test_group name. unfold mbind, result_bind.
  destruct (run_duration run) as [d|e]; [|done].
  unfold status_in. cbn [existsb]. rewrite !orb_false_r.
  repeat split.
  - intros Hout. apply orb_false_elim in Hout as [-> Hout].
    by destruct (py_eq_str status "stopped"), (py_eq_str status "running"),
         (py_eq_str status "other"), (py_eq_str status "waiting").
  - intros Hst Hname. rewrite Hst. cbn [py_eq_str].
    change (String.eqb "failed" "failed") with true. cbn iota.
    assert (Hdflt : dict_get run "first_failure_name" (PStr "RUN_STILL_IN_PROGRESS")
                    = PStr "RUN_STILL_IN_PROGRESS")
      by (unfold dict_get; by rewrite Hname).
    rewrite Hdflt. unfold failure_body. do 2 f_equal.
    change (_xml_safe py_repr (PStr "RUN_STILL_IN_PROGRESS"))
      with "RUN_STILL_IN_PROGRESS".
    by rewrite !append_assoc.
  - intros Hin.
    destruct (py_eq_str status "failed") eqn:Hf.
    + exfalso. destruct status as [| | | |s| |]; try done. cbn in Hf, Hin.
      apply String.eqb_eq in Hf as ->. done.
    + by destruct (py_eq_str status "stopped"), (py_eq_str status "running"),
           (py_eq_str status "other"), (py_eq_str status "waiting").
Qed.

(** ** Extra attributes in the failure body *)

Section ExtraAttributes.

Variable py_repr : pyval -> string.

Lemma extra_attr_parts_spec run labels attrs : forall parts,
  extra_attr_parts py_repr run labels attrs parts
  = (parts ++ map (attr_block py_repr run labels)
                (List.filter (fun a => negb (omitted a)) attrs))%list.
Proof.
  induction attrs as [|attr rest IH]; intros parts.
  - cbn. by rewrite app_nil_r.
  - cbn [extra_attr_parts List.filter]. fold (omitted attr).
    destruct (omitted attr); cbn [negb].
    + apply IH.
    + rewrite IH, <- app_assoc. cbn [map app]. do 3 f_equal.
      unfold attr_block, dict_get.
      destruct (dict_lookup run (strip attr)) as [[| | | |s| |]|]; done.
Qed.

Lemma in_set_In x s : in_set x s = true <-> In x s.
Proof.
  unfold in_set. rewrite existsb_exists. split.
  - intros (y & Hin & Heq). apply String.eqb_eq in Heq. by subst.
  - intros Hin. exists x. split; [done|]. apply String.eqb_refl.
Qed.

End ExtraAttributes.

(** C9. The extra-attribute text of a failed run is made of one block per
    configured attribute, in order and joined by line breaks, leaving out
    every attribute whose trimmed name is empty, holds a space or is a
    built-in field name. A block is the label, a colon and the value on an
    indented line; each separator marker of a string value starts a new
    indented line, and a value the run does not have reads NA. This text
    closes the body of the failure element. *)
Theorem build_extra_attr_text_blocks (py_repr : pyval -> string)
    (run : pydict) (attrs : list string) (labels : pydict) :
  _build_extra_attr_text py_repr run attrs labels
  = join nl (map (attr_block py_repr run labels)
               (List.filter (fun a => negb (omitted a)) attrs))
  /\ (forall a, omitted a = true
                <-> strip a = EmptyString
                    \/ contains_char " " (strip a) = true
                    \/ In (strip a) built_in)
  /\ (forall a, dict_lookup run (strip a) = None ->
        attr_block py_repr run labels a
        = py_str py_repr (dict_get labels (strip a) (PStr (strip a)))
          +:+ ":" +:+ indent +:+ "NA")
  /\ (forall a s, dict_lookup run (strip a) = Some (PStr s) ->
        attr_block py_repr run labels a
        = py_str py_repr (dict_get labels (strip a) (PStr (strip a)))
          +:+ ":" +:+ indent
          +:+ _xml_safe py_repr (PStr (replace "<__SEPARATOR__>" indent s)))
  /\ (forall no_append_seed,
        dict_get run "status" (PStr "NA") = PStr "failed" ->
        exists opening,
          testcase_lines py_repr run attrs labels no_append_seed
          = d ← run_duration run;
            Ok [testcase_tag
                  (_xml_safe py_repr (dict_get run "test_group" (PStr "NA")))
                  (full_name py_repr run no_append_seed) d ">";
                opening +:+ failure_body py_repr run attrs labels +:+ "</failure>";
                "    </testcase>"]).
Proof.
  repeat split.
  - unfold _build_extra_attr_text. destruct attrs as [|a rest]; [done|].
    by rewrite extra_attr_parts_spec.
  - unfold omitted. intros H.
    apply orb_prop in H as [H|H]; [apply orb_prop in H as [H|H]|].
    + left. by apply String.eqb_eq.
    + right. by left.
    + right. right. by apply in_set_In.
  - unfold omitted. intros [H|[H|H]].
    + apply String.eqb_eq in H. by rewrite H.
    + rewrite H. by rewrite orb_true_r.
    + apply in_set_In in H. rewrite H. by rewrite orb_true_r.
  - intros a Hmiss. unfold attr_block. by rewrite Hmiss.
  - intros a s Hval. unfold attr_block. by rewrite Hval.
  - intros no_append_seed Hst.
    exists ("      <failure message=" +:+ dquote
            +:+ _xml_safe py_repr
                  (dict_get run "first_failure_name" (PStr "RUN_STILL_IN_PROGRESS"))
            +:+ dquote +:+ " type=" +:+ dquote
            +:+ _xml_safe py_repr
                  (dict_get run "first_failure_name" (PStr "RUN_STILL_IN_PROGRESS"))
            +:+ dquote +:+ ">").
    unfold testcase_lines. rewrite Hst. unfold mbind, result_bind.
    destruct (run_duration run) as [d|e]; [|done].
    cbn [py_eq_str]. change (String.eqb "failed" "failed") with true. cbn iota.
    unfold failure_body. do 3 f_equal. by rewrite !append_assoc.
Qed.

Lemma build_extra_attr_text_blocks_witness :
  omitted " test_name " = true
  /\ omitted "cpu time" = true
  /\ _build_extra_attr_text (fun _ => "?") sample_failed_run
       [" owner "; "test_name"; "cpu time"; "  "; "host"] [("owner", PStr "Owner")]
     = "Owner:" +:+ indent +:+ "a" +:+ indent +:+ "b" +:+ nl
       +:+ "host:" +:+ indent +:+ "NA".
Proof.
  split; [|split].
  - apply (build_extra_attr_text_blocks (fun _ => "?") sample_failed_run [] []).
    right. right. cbn. tauto.
  - apply (build_extra_attr_text_blocks (fun _ => "?") sample_failed_run [] []).
    right. left. reflexivity.
  - etransitivity;
      [apply (build_extra_attr_text_blocks (fun _ => "?") sample_failed_run)|].
    reflexivity.
Defined.

(** ** Malformed fields of a run *)

Section Escaping.

Variable py_repr : pyval -> string.

Lemma replace_char c new s :
  replace (String c EmptyString) new s = subst_char c new s.
Proof.
  assert (Hempty : forall t, String.prefix EmptyString t = true)
    by (by intros []).
  unfold replace. induction s as [|x rest IH]; [done|].
  cbn [replace_from subst_char String.prefix String.length Nat.sub].
  destruct (Ascii.eqb_spec x c) as [->|Hne].
  - destruct (ascii_dec c c); [|done]. by rewrite Hempty, IH.
  - destruct (ascii_dec c x); [by subst|]. by rewrite IH.
Qed.

Lemma contains_char_app x a b :
  contains_char x (a +:+ b) = contains_char x a || contains_char x b.
Proof.
  induction a as [|y a IH]; [done|].
  change (contains_char x (String y (a +:+ b))
          = contains_char x (String y a) || contains_char x b).
  cbn [contains_char]. by rewrite IH, orb_assoc.
Qed.

Lemma subst_char_clean x c new s :
  contains_char x new = false ->
  x = c \/ contains_char x s = false ->
  contains_char x (subst_char c new s) = false.
Proof.
  intros Hnew Hs. induction s as [|y rest IH]; [done|].
  cbn [subst_char]. destruct (Ascii.eqb_spec y c) as [->|Hne].
  - rewrite contains_char_app, Hnew. cbn [orb]. apply IH.
    destruct Hs as [->|Hs]; [by left|right].
    cbn [contains_char] in Hs. by apply orb_false_elim in Hs as [_ ?].
  - cbn [contains_char]. destruct Hs as [->|Hs].
    + apply orb_false_intro; [|apply IH; by left].
      by apply Ascii.eqb_neq.
    + cbn [contains_char] in Hs. apply orb_false_elim in Hs as [Hy Hrest].
      rewrite Hy. cbn [orb]. apply IH. by right.
Qed.

Lemma xml_escape_clean s x :
  In x xml_special ->
  contains_char x (xml_escape s [(dquote, "&quot;"); ("'", "&apos;")]) = false.
Proof.
  intros Hx. unfold xml_escape. cbn [fold_left fst snd]. unfold dquote.
  rewrite !replace_char.
  set (s1 := subst_char "&" "&amp;" s).
  assert (Hgt : contains_char ">" (subst_char ">" "&gt;" s1) = false)
    by (apply subst_char_clean; [done|by left]).
  set (s2 := subst_char ">" "&gt;" s1) in *.
  assert (Hlt : contains_char "<" (subst_char "<" "&lt;" s2) = false)
    by (apply subst_char_clean; [done|by left]).
  assert (Hgt' : contains_char ">" (subst_char "<" "&lt;" s2) = false)
    by (apply subst_char_clean; [done|by right]).
  set (s3 := subst_char "<" "&lt;" s2) in *.
  assert (Hq : forall y, y = "034"%char \/ contains_char y s3 = false ->
                         contains_char y "&quot;" = false ->
                         contains_char y (subst_char "034" "&quot;" s3) = false)
    by (intros y Hy Hnew; by apply subst_char_clean).
  set (s4 := subst_char "034" "&quot;" s3) in *.
  cbn in Hx.
  destruct Hx as [<-|[<-|[<-|[<-|[]]]]];
    apply subst_char_clean; try done; try (by left); right; apply Hq;
    try done; try (by left); by right.
Qed.

(** The text [_xml_safe] returns holds none of the reserved characters. *)
Lemma xml_safe_clean v x :
  In x xml_special -> contains_char x (_xml_safe py_repr v) = false.
Proof.
  intros Hx. destruct v; try (by apply xml_escape_clean).
  cbn in Hx. by destruct Hx as [<-|[<-|[<-|[<-|[]]]]].
Qed.

(** A field that is missing or [None] reads NA. *)
Lemma xml_safe_missing (run : pydict) key :
  dict_lookup run key = None \/ dict_lookup run key = Some PNone ->
  _xml_safe py_repr (dict_get run key (PStr "NA")) = "NA".
Proof. unfold dict_get. by intros [-> | ->]. Qed.

(** A duration that is missing, or that [int] refuses with [ValueError]
    or [TypeError], counts as 0. *)
Lemma run_duration_zero (run : pydict) :
  dict_lookup run "duration" = None
  \/ (exists v e, dict_lookup run "duration" = Some v /\ py_int v = Raise e
                  /\ e <> OverflowError) ->
  run_duration run = Ok 0%Z.
Proof.
  unfold run_duration, dict_get. intros [-> | (v & e & -> & Hint & He)]; [done|].
  rewrite Hint. destruct e; try done.
  destruct v as [| | |[]| | |]; try done. cbn in Hint.
  by destruct (parse_int_literal s).
Qed.

Lemma run_duration_raises (run : pydict) e :
  run_duration run = Raise e
  <-> e = OverflowError
      /\ exists negative,
           dict_lookup run "duration" = Some (PFloat (FInf negative)).
Proof.
  unfold run_duration, dict_get. split.
  - destruct (dict_lookup run "duration") as [v|]; [|done].
    destruct v as [| | |[q|negative|]|s| |]; try done; cbn.
    + intros [= <-]. eauto.
    + by destruct (parse_int_literal s).
  - intros [-> [negative ->]]. done.
Qed.

Lemma testcase_lines_raises run extra_attrs attr_labels no_append_seed e :
  testcase_lines py_repr run extra_attrs attr_labels no_append_seed = Raise e
  <-> run_duration run = Raise e.
Proof.
  unfold testcase_lines, mbind, result_bind.
  destruct (run_duration run) as [d|e']; [|split; by intros [= <-]].
  split; [|done].
  repeat match goal with
         | |- context [if ?b then _ else _] => destruct b
         end; done.
Qed.

Lemma testcases_raises extra_attrs attr_labels no_append_seed e runs :
  forall lines,
    testcases py_repr runs extra_attrs attr_labels no_append_seed lines = Raise e
    <-> Exists (fun run => run_duration run = Raise e) runs.
Proof.
  induction runs as [|run rest IH]; intros lines.
  - cbn. split; [done|]. intros H. inversion H.
  - cbn [testcases].
    destruct (testcase_lines py_repr run extra_attrs attr_labels no_append_seed)
      as [new|e'] eqn:E.
    + rewrite IH. split; [by apply Exists_cons_tl|].
      intros H. inversion H as [? ? Hd|]; subst; [|done].
      apply testcase_lines_raises with (extra_attrs := extra_attrs)
        (attr_labels := attr_labels) (no_append_seed := no_append_seed) in Hd.
      congruence.
    + apply testcase_lines_raises in E. split.
      * intros [= <-]. by apply Exists_cons_hd.
      * intros H. f_equal.
        apply run_duration_raises in E as [-> _].
        apply Exists_exists in H as (r & _ & Hr).
        by apply run_duration_raises in Hr as [-> _].
Qed.

End Escaping.

Section Entries.

Variable py_repr : pyval -> string.
Variable extra_attrs : list string.
Variable attr_labels : pydict.
Variable no_append_seed : bool.

Lemma testcase_lines_entry run lines :
  testcase_lines py_repr run extra_attrs attr_labels no_append_seed = Ok lines ->
  exists d,
    run_duration run = Ok d
    /\ entry_by_status py_repr extra_attrs attr_labels no_append_seed run d lines.
Proof.
  intros Hlines.
  pose proof (testcase_lines_by_status py_repr run extra_attrs attr_labels
                no_append_seed) as H.
  cbn zeta in H. rewrite Hlines in H.
  destruct (run_duration run) as [d|e] eqn:Hd.
  - exists d. split; [done|]. unfold mbind, result_bind in H.
    destruct H as (H1 & H2 & H3). unfold entry_by_status.
    split; [|split].
    + intros Hs. specialize (H1 Hs). by injection H1.
    + intros Hs Hn. specialize (H2 Hs Hn). by injection H2.
    + intros Hs. specialize (H3 Hs). by injection H3.
  - exfalso.
    apply (testcase_lines_raises py_repr run extra_attrs attr_labels
             no_append_seed) in Hd.
    congruence.
Qed.

(** With no infinite duration among the runs the loop goes through, and
    adds the lines of each run in turn. *)
Lemma testcases_entries runs : forall lines,
  Forall (fun run => forall negative,
            dict_lookup run "duration" <> Some (PFloat (FInf negative))) runs ->
  exists entries,
    testcases py_repr runs extra_attrs attr_labels no_append_seed lines
    = Ok (lines ++ concat entries)%list
    /\ Forall2 (fun run new =>
                  testcase_lines py_repr run extra_attrs attr_labels no_append_seed
                  = Ok new) runs entries.
Proof.
  induction runs as [|run rest IH]; intros lines Hall.
  - exists []. cbn. rewrite app_nil_r. split; [done|constructor].
  - inversion Hall as [|? ? Hrun Hrest]; subst. cbn [testcases].
    destruct (testcase_lines py_repr run extra_attrs attr_labels no_append_seed)
      as [new|e] eqn:E.
    + destruct (IH (lines ++ new)%list Hrest) as (entries & Ht & Hf).
      exists (new :: entries). cbn [concat]. rewrite Ht.
      split; [by rewrite <- app_assoc|]. by constructor.
    + exfalso. apply testcase_lines_raises in E.
      apply run_duration_raises in E as [_ [negative Hn]]. by eapply Hrun.
Qed.

End Entries.

(** C6. Every run given to the report generator gets its entry of the
    report, in the order of the runs and between the [testsuite] tags, and
    the entry goes by the status. A status outside failed, stopped,
    running, other and waiting ([passed] among them, and a status that is
    missing or no string) gives one self-closed test case, with neither
    failure nor skipped element. Status [failed] with no
    [first_failure_name] gives a failure element whose message and type
    are RUN_STILL_IN_PROGRESS. A status among stopped, running, other and
    waiting gives a test case holding a skipped element and no failure.
    This holds as long as no run has a float infinity for its duration:
    such a run, whatever its status, makes the generator raise
    [OverflowError], and then no run gets an entry. *)
Theorem report_entries_by_status (py_repr : pyval -> string)
    (runs : list pydict) (extra_attrs : list string) (attr_labels : pydict)
    (no_append_seed : bool) :
  generate_junit_xml py_repr
    [[("status", PStr "passed"); ("test_name", PStr "t1");
      ("duration", PFloat (FInf false))]]
    extra_attrs attr_labels no_append_seed = Raise OverflowError
  /\ (runs <> [] ->
      Forall (fun run => forall negative,
                dict_lookup run "duration" <> Some (PFloat (FInf negative))) runs ->
      exists entries,
        generate_junit_xml py_repr runs extra_attrs attr_labels no_append_seed
        = Ok (Some (join nl (xml_declaration :: testsuite_tag (length runs)
                             :: concat entries ++ ["</testsuite>"])%list
                    +:+ nl))
        /\ Forall2 (fun run lines =>
                      exists d,
                        run_duration run = Ok d
                        /\ entry_by_status py_repr extra_attrs attr_labels
                             no_append_seed run d lines)
             runs entries).
Proof.
  split; [done|]. intros Hne Hall.
  unfold generate_junit_xml. destruct runs as [|run rest]; [done|].
  match goal with
  | |- context [testcases _ _ _ _ _ ?hdr] =>
      destruct (testcases_entries py_repr extra_attrs attr_labels no_append_seed
                  (run :: rest) hdr Hall) as (entries & Ht & Hf);
      rewrite Ht
  end.
  exists entries. split; [done|].
  clear Ht Hall Hne. induction Hf as [|r new rs news Hr _ IH]; constructor.
  - by apply testcase_lines_entry.
  - exact IH.
Qed.

Lemma report_entries_by_status_witness :
  exists entries,
    generate_junit_xml (fun _ => "?")
      [[("status", PStr "passed"); ("test_name", PStr "test_a");
        ("duration", PInt 10); ("computed_seed", PStr "7")];
       [("status", PStr "running")];
       [("status", PStr "failed")]] [] [] false
    = Ok (Some (join nl (xml_declaration :: testsuite_tag 3
                         :: concat entries ++ ["</testsuite>"])%list
                +:+ nl))
    /\ Forall2 (fun run lines =>
                  exists d,
                    run_duration run = Ok d
                    /\ entry_by_status (fun _ => "?") [] [] false run d lines)
         [[("status", PStr "passed"); ("test_name", PStr "test_a");
           ("duration", PInt 10); ("computed_seed", PStr "7")];
          [("status", PStr "running")];
          [("status", PStr "failed")]]
         entries.
Proof.
  destruct (report_entries_by_status (fun _ => "?")
              [[("status", PStr "passed"); ("test_name", PStr "test_a");
                ("duration", PInt 10); ("computed_seed", PStr "7")];
               [("status", PStr "running")];
               [("status", PStr "failed")]] [] [] false) as [_ H].
  apply H.
  - discriminate.
  - repeat constructor; intros negative; vm_compute; discriminate.
Defined.

(** C10. The report generator is not total: a run whose duration is a
    float infinity makes [int] raise [OverflowError], which the
    [except (ValueError, TypeError)] around it lets through, and no report
    is produced. This is the only way: the generator raises exactly when
    some run has such a duration. *)
Theorem generate_junit_xml_infinite_duration (py_repr : pyval -> string)
    (runs : list pydict) (extra_attrs : list string) (attr_labels : pydict)
    (no_append_seed : bool) :
  generate_junit_xml py_repr
    [[("status", PStr "passed"); ("test_name", PStr "t1");
      ("duration", PFloat (FInf false))]]
    extra_attrs attr_labels no_append_seed = Raise OverflowError
  /\ (forall e,
        generate_junit_xml py_repr runs extra_attrs attr_labels no_append_seed
        = Raise e
        <-> e = OverflowError
            /\ Exists (fun run => exists negative,
                         dict_lookup run "duration" = Some (PFloat (FInf negative)))
                 runs).
Proof.
  split; [done|]. intros e.
  assert (Hruns : generate_junit_xml py_repr runs extra_attrs attr_labels
                    no_append_seed = Raise e
                  <-> Exists (fun run => run_duration run = Raise e) runs).
  { unfold generate_junit_xml. destruct runs as [|run rest].
    - split; [done|]. intros H. inversion H.
    - match goal with
      | |- context [testcases _ _ _ _ _ ?hdr] =>
          rewrite <- (testcases_raises py_repr extra_attrs attr_labels
                        no_append_seed e (run :: rest) hdr);
          destruct (testcases py_repr (run :: rest) extra_attrs attr_labels
                      no_append_seed hdr) as [lines|e']
      end.
      + split; done.
      + split; by intros [= <-]. }
  rewrite Hruns, !Exists_exists. split.
  - intros (run & Hin & Hr). apply run_duration_raises in Hr as [-> Hinf].
    split; [done|]. by exists run.
  - intros [-> (run & Hin & Hinf)]. exists run. split; [done|].
    by apply run_duration_raises.
Qed.

(** * Further properties of the waiter *)

Section WaiterInvariants.

Variable cfg : Config.

Lemma remove_first_sublist sid rem : remove_first sid rem `sublist_of` rem.
Proof.
  induction rem as [|y rem IH]; [done|]. cbn.
  destruct (String.eqb y sid); [by apply sublist_cons|by apply sublist_skip].
Qed.

Lemma check_all_done_keeps w sid :
  session_ids (_check_all_done w sid).1 = session_ids w
  /\ remaining (_check_all_done w sid).1 `sublist_of` remaining w
  /\ completed_last_check (_check_all_done w sid).1 = completed_last_check w
  /\ final_state (_check_all_done w sid).1 = final_state w.
Proof.
  unfold _check_all_done. cbn [fst].
  destruct (flag (final_state w) sid); [|done].
  case_bool_decide; [|done]. cbn. repeat split; try done.
  apply remove_first_sublist.
Qed.

Lemma check_all_done_empty w sid :
  (_check_all_done w sid).2 = true -> remaining (_check_all_done w sid).1 = [].
Proof.
  unfold _check_all_done. cbn [fst snd]. intros Hlen.
  apply Nat.eqb_eq in Hlen. by apply length_zero_iff_nil.
Qed.

(** What [apply_resolver] hands on. *)
Lemma apply_resolver_keeps sid state w agg r :
  apply_resolver cfg sid state w agg = r ->
  match r with
  | Fault _ => True
  | Next w' agg' | Break w' agg' | Halt _ w' agg' =>
      agg' = agg
      /\ session_ids w' = session_ids w
      /\ remaining w' `sublist_of` remaining w
      /\ completed_last_check w' = completed_last_check w
      /\ final_state w' = final_state w
  end
  /\ (forall w' agg', r = Halt true w' agg' -> remaining w' = []).
Proof.
  intros <-. unfold apply_resolver.
  destruct (_get_resolver cfg state) as [resolver|e]; [|done].
  pose proof (check_all_done_keeps w sid) as (Hids & Hrem & Hclc & Hfin).
  pose proof (check_all_done_empty w sid) as Hempty.
  destruct (_check_all_done w sid) as [w2 done']. cbn [fst snd] in *.
  destruct (py_eq_str state "completed"), (String.eqb resolver "fail"),
    (String.eqb resolver "continue"), done'; cbn; split; try done;
    intros w' agg' [= <- <-]; by apply Hempty.
Qed.

Lemma rerun_check_keeps w sid r wt :
  session_ids (rerun_check w sid r wt).1 = session_ids w
  /\ remaining (rerun_check w sid r wt).1 = remaining w.
Proof. by destruct (rerun_check_remaining w sid r wt). Qed.

(** What [examine] hands on. *)
Lemma examine_keeps sid info w agg r :
  examine cfg sid info w agg = r ->
  match r with
  | Fault _ => True
  | Next w' agg' | Break w' agg' | Halt _ w' agg' =>
      agg' = dict_set agg sid info
      /\ session_ids w' = session_ids w
      /\ remaining w' `sublist_of` remaining w
  end
  /\ (forall w' agg', r = Halt true w' agg' -> remaining w' = []).
Proof.
  intros <-. unfold examine.
  set (state := dict_get info "session_status" (PStr "unknown")).
  set (w0 := set_name sid (dict_get info "name" (PStr sid)) w).
  pose proof (rerun_check_keeps w0 sid (dict_get info "running" (PInt 0))
                (dict_get info "waiting" (PInt 0))) as [Hids Hrem].
  destruct (rerun_check w0 sid _ _) as [w1 confirmed]. cbn [fst] in Hids, Hrem.
  change (session_ids w0) with (session_ids w) in Hids.
  change (remaining w0) with (remaining w) in Hrem.
  assert (Hgo : forall w2,
             session_ids w2 = session_ids w ->
             remaining w2 `sublist_of` remaining w ->
             match apply_resolver cfg sid state w2 (dict_set agg sid info) with
             | Fault _ => True
             | Next w' agg' | Break w' agg' | Halt _ w' agg' =>
                 agg' = dict_set agg sid info
                 /\ session_ids w' = session_ids w
                 /\ remaining w' `sublist_of` remaining w
             end
             /\ (forall w' agg',
                   apply_resolver cfg sid state w2 (dict_set agg sid info)
                   = Halt true w' agg' -> remaining w' = [])).
  { intros w2 Hi Hr.
    destruct (apply_resolver_keeps sid state w2 (dict_set agg sid info) _ eq_refl)
      as [Hk He].
    split; [|done].
    destruct (apply_resolver cfg sid state w2 (dict_set agg sid info));
      try done; destruct Hk as (-> & Hi' & Hr' & _); repeat split; try congruence;
      by etrans. }
  destruct (confirmed && py_eq_str state "failed").
  - pose proof (check_all_done_keeps w1 sid) as (Hids2 & Hrem2 & _ & _).
    pose proof (check_all_done_empty w1 sid) as Hempty.
    destruct (_check_all_done w1 sid) as [w2 done']. cbn [fst snd] in *.
    destruct done'.
    + split; [repeat split; [congruence|by rewrite <- Hrem]|].
      intros w' agg' [= <- <-]. by apply Hempty.
    + apply Hgo; [congruence|by rewrite <- Hrem].
  - apply Hgo; [done|by rewrite Hrem].
Qed.

(** What the loop body hands on for one session. *)
Lemma poll_session_keeps sid x w agg r :
  poll_session cfg sid x w agg = r ->
  match r with
  | Fault _ => True
  | Next w' agg' | Break w' agg' | Halt _ w' agg' =>
      session_ids w' = session_ids w
      /\ remaining w' `sublist_of` remaining w
      /\ (agg' = agg \/ exists info, info <> [] /\ agg' = dict_set agg sid info)
  end
  /\ (forall w' agg', r = Halt true w' agg' -> remaining w' = []).
Proof.
  intros <-. unfold poll_session.
  destruct (get_session_status x) as [info|[code msg|]].
  - destruct (py_truthy info) eqn:Htruthy; cbn [negb].
    + destruct info as [| | | | | |d]; try done.
      destruct (examine_keeps sid d w agg _ eq_refl) as [Hk He].
      split; [|done].
      assert (Hd : d <> []) by (by destruct d).
      destruct (examine cfg sid d w agg); try done;
        destruct Hk as (-> & ? & ?); repeat split; try done; right; by exists d.
    + split; [|done]. repeat split; try done. by left.
  - split; [|done]. repeat split; try done. by left.
  - split; [|done]. repeat split; try done. by left.
Qed.

Lemma dict_set_keys {V : Type} (d : list (string * V)) k v :
  (forall x, x ∈ dict_keys (dict_set d k v) <-> x = k \/ x ∈ dict_keys d)
  /\ (NoDup (dict_keys d) -> NoDup (dict_keys (dict_set d k v)))
  /\ (forall x y, (x, y) ∈ dict_set d k v -> (x, y) = (k, v) \/ (x, y) ∈ d).
Proof.
  induction d as [|[k' v'] d IH]; cbn.
  - repeat split.
    + intros Hx. apply list_elem_of_singleton in Hx. by left.
    + intros [->|Hx]; [apply list_elem_of_singleton; done|inversion Hx].
    + intros _. apply NoDup_singleton.
    + intros x y Hxy. apply list_elem_of_singleton in Hxy. by left.
  - destruct IH as (IHin & IHnd & IHel).
    destruct (String.eqb_spec k' k) as [->|Hne]; cbn.
    + repeat split.
      * intros Hx. apply elem_of_cons in Hx as [->|Hx]; [by left|].
        right. by apply elem_of_cons; right.
      * intros [->|Hx]; [by apply elem_of_cons; left|done].
      * done.
      * intros x y Hxy. apply elem_of_cons in Hxy as [Hxy|Hxy]; [by left|].
        right. by apply elem_of_cons; right.
    + repeat split.
      * intros Hx. apply elem_of_cons in Hx as [->|Hx].
        -- right. by apply elem_of_cons; left.
        -- apply IHin in Hx as [->|Hx]; [by left|].
           right. by apply elem_of_cons; right.
      * intros [->|Hx].
        -- apply elem_of_cons; right. apply IHin. by left.
        -- apply elem_of_cons in Hx as [->|Hx]; [by apply elem_of_cons; left|].
           apply elem_of_cons; right. apply IHin. by right.
      * intros Hnd. apply NoDup_cons in Hnd as [Hnot Hnd].
        apply NoDup_cons. split; [|by apply IHnd].
        intros Hin. apply IHin in Hin as [->|Hin]; done.
      * intros x y Hxy. apply elem_of_cons in Hxy as [Hxy|Hxy].
        -- right. by apply elem_of_cons; left.
        -- apply IHel in Hxy as [Hxy|Hxy]; [by left|].
           right. by apply elem_of_cons; right.
Qed.

Lemma aggregate_ok_set ids agg sid info :
  sid ∈ ids -> info <> [] -> aggregate_ok ids agg ->
  aggregate_ok ids (dict_set agg sid info).
Proof.
  intros Hsid Hinfo (Hnd & Hkeys & Hrec).
  destruct (dict_set_keys agg sid info) as (Hin & Hnd' & Hel).
  repeat split.
  - by apply Hnd'.
  - intros k Hk. apply Hin in Hk as [->|Hk]; [done|by apply Hkeys].
  - intros k d Hkd. apply Hel in Hkd as [[= -> ->]|Hkd]; [done|by eapply Hrec].
Qed.

(** A sweep over tracked sessions keeps the session list, only shrinks
    [remaining], keeps the aggregate well formed, and halts with [True]
    only when nothing remains. *)
Lemma sweep_keeps f ids : forall todo i w agg tr r,
  (forall sid, sid ∈ todo -> sid ∈ ids) ->
  aggregate_ok ids agg ->
  sweep cfg f i todo w agg = (tr, r) ->
  match r with
  | Fault _ => True
  | Next w' agg' | Break w' agg' | Halt _ w' agg' =>
      session_ids w' = session_ids w
      /\ remaining w' `sublist_of` remaining w
      /\ aggregate_ok ids agg'
  end
  /\ (forall w' agg', r = Halt true w' agg' -> remaining w' = []).
Proof.
  induction todo as [|sid todo IH]; intros i w agg tr r Hsub Hagg.
  - cbn. intros [= <- <-]. done.
  - cbn [sweep].
    destruct (poll_session_keeps sid (f i) w agg _ eq_refl) as [Hk He].
    assert (Hsid : sid ∈ ids) by (apply Hsub; by apply elem_of_cons; left).
    assert (Hagg' : forall agg',
               agg' = agg \/ (exists info, info <> [] /\ agg' = dict_set agg sid info) ->
               aggregate_ok ids agg').
    { intros agg' [->|(info & Hinfo & ->)]; [done|by apply aggregate_ok_set]. }
    destruct (poll_session cfg sid (f i) w agg) as [w1 agg1|w1 agg1|b w1 agg1|e].
    + destruct Hk as (Hids & Hrem & Hset).
      destruct (sweep cfg f (S i) todo w1 agg1) as [tr' r'] eqn:Hrest.
      intros [= <- <-].
      destruct (IH (S i) w1 agg1 tr' r') as [Hk' He']; [| |done|].
      { intros s Hs. apply Hsub. by apply elem_of_cons; right. }
      { by apply Hagg'. }
      split; [|done].
      destruct r'; try done; destruct Hk' as (? & ? & ?);
        (split; [congruence|split; [by etrans|done]]).
    + intros [= <- <-]. destruct Hk as (? & ? & ?). split; [|done].
      split; [done|split; [done|by apply Hagg']].
    + intros [= <- <-]. destruct Hk as (? & ? & ?). split; [|done].
      split; [done|split; [done|by apply Hagg']].
    + intros [= <- <-]. done.
Qed.

End WaiterInvariants.

Lemma wait_loop_keeps (cfg : Config) (script : list poll) : forall w agg,
  aggregate_ok (session_ids w) agg ->
  match (wait_loop cfg script w agg).2 with
  | Returned _ agg' => aggregate_ok (session_ids w) agg'
  | Polling w' agg' =>
      session_ids w' = session_ids w
      /\ remaining w' `sublist_of` remaining w
      /\ aggregate_ok (session_ids w) agg'
  | _ => True
  end.
Proof.
  induction script as [|p rest IH]; intros w agg Hagg; [done|].
  cbn [wait_loop].
  destruct (timeout_fires cfg (elapsed p)); [done|].
  destruct (time_sleep (poll_interval cfg)); [|done].
  destruct (sweep cfg (fetch p) 0 (session_ids w) w agg) as [tr r] eqn:Hsweep.
  destruct (sweep_keeps cfg (fetch p) (session_ids w) _ _ _ _ _ _
              (fun _ H => H) Hagg Hsweep) as [Hk _].
  destruct r as [w1 agg1|w1 agg1|b w1 agg1|e]; try done.
  - destruct Hk as (Hids & Hrem & Hagg1).
    specialize (IH w1 agg1). rewrite Hids in IH. specialize (IH Hagg1).
    destruct (wait_loop cfg rest w1 agg1) as [tr' o]. cbn [snd] in *.
    destruct o; try done. destruct IH as (? & ? & ?).
    split; [congruence|split; [by etrans|done]].
  - destruct Hk as (Hids & Hrem & Hagg1).
    specialize (IH w1 agg1). rewrite Hids in IH. specialize (IH Hagg1).
    destruct (wait_loop cfg rest w1 agg1) as [tr' o]. cbn [snd] in *.
    destruct o; try done. destruct IH as (? & ? & ?).
    split; [congruence|split; [by etrans|done]].
  - by destruct Hk as (_ & _ & ?).
Qed.

(** X1. Whatever the server answers, the records [wait] hands back (or
    holds while still polling) have distinct session ids, all of them
    tracked, and none is an empty record: each session is counted once by
    the statistics, however often it was polled. *)
Theorem wait_aggregate_well_formed (cfg : Config) (ids : list string)
    (script : list poll) (agg : aggregate) :
  outcome_aggregate (wait cfg ids script).2 = Some agg ->
  aggregate_ok ids agg.
Proof.
  unfold wait.
  assert (Hinit : aggregate_ok (session_ids (new_waiter ids)) []).
  { repeat split; [apply NoDup_nil_2|intros k Hk; inversion Hk|].
    intros k d Hkd. inversion Hkd. }
  pose proof (wait_loop_keeps cfg script (new_waiter ids) [] Hinit) as Hk.
  destruct (wait_loop cfg script (new_waiter ids) []) as [tr o]. cbn [snd] in *.
  destruct o; cbn; intros [= <-]; [done|by destruct Hk as (_ & _ & ?)].
Qed.

Lemma wait_aggregate_well_formed_witness :
  aggregate_ok ["a"; "b"]
    [("a", [("session_status", PStr "completed"); ("running", PInt 0);
            ("waiting", PInt 0)]);
     ("b", [("session_status", PStr "failed"); ("running", PInt 0);
            ("waiting", PInt 0)])].
Proof.
  apply (wait_aggregate_well_formed default_config ["a"; "b"]
           [completed_and_idle; completed_and_failed]).
  reflexivity.
Defined.

(** A sweep keeps the session list and only shrinks [remaining],
    whatever records it was given. *)
Lemma sweep_shrinks (cfg : Config) (f : nat -> exchange) :
  forall todo i w agg,
    match (sweep cfg f i todo w agg).2 with
    | Fault _ => True
    | Next w' _ | Break w' _ | Halt _ w' _ =>
        session_ids w' = session_ids w
        /\ remaining w' `sublist_of` remaining w
    end.
Proof.
  induction todo as [|sid todo IH]; intros i w agg; [done|].
  cbn [sweep].
  destruct (poll_session_keeps cfg sid (f i) w agg _ eq_refl) as [Hk _].
  destruct (poll_session cfg sid (f i) w agg) as [w1 agg1|w1 agg1|b w1 agg1|e];
    cbn [snd]; [|by destruct Hk as (? & ? & _)..|done].
  destruct Hk as (Hids & Hrem & _). specialize (IH (S i) w1 agg1).
  destruct (sweep cfg f (S i) todo w1 agg1) as [tr' r']. cbn [snd] in *.
  destruct r'; try done; destruct IH as [? ?];
    (split; [congruence|by etrans]).
Qed.

(** From whatever state the loop is taken up, the state it is in later
    tracks the same sessions and has in [remaining] a sub-list of what
    was there. *)
Lemma wait_loop_shrinks (cfg : Config) (script : list poll) :
  forall w agg w' agg',
    (wait_loop cfg script w agg).2 = Polling w' agg' ->
    session_ids w' = session_ids w
    /\ remaining w' `sublist_of` remaining w.
Proof.
  induction script as [|p rest IH]; intros w agg w' agg'.
  { cbn. by intros [= <- <-]. }
  cbn [wait_loop].
  destruct (timeout_fires cfg (elapsed p)); [done|].
  destruct (time_sleep (poll_interval cfg)); [|done].
  pose proof (sweep_shrinks cfg (fetch p) (session_ids w) 0 w agg) as Hs.
  destruct (sweep cfg (fetch p) 0 (session_ids w) w agg) as [tr r].
  cbn [snd] in Hs.
  destruct r as [w1 agg1|w1 agg1|b w1 agg1|e]; try done.
  all: destruct Hs as [Hids Hrem]; specialize (IH w1 agg1 w' agg');
    destruct (wait_loop cfg rest w1 agg1) as [tr' o]; cbn [snd] in *;
    intros Ho; destruct (IH Ho) as [? ?];
    (split; [congruence|by etrans]).
Qed.

(** A loop still polling at the end of a script goes on, with the turns
    that follow, from the state it has reached. *)
Lemma wait_loop_app (cfg : Config) (s1 s2 : list poll) :
  forall w agg tr1 w1 agg1,
    wait_loop cfg s1 w agg = (tr1, Polling w1 agg1) ->
    wait_loop cfg (s1 ++ s2)%list w agg
    = let '(tr2, o) := wait_loop cfg s2 w1 agg1 in ((tr1 ++ tr2)%list, o).
Proof.
  induction s1 as [|p rest IH]; intros w agg tr1 w1 agg1.
  { cbn. intros [= <- <- <-]. by destruct (wait_loop cfg s2 w agg). }
  cbn [app wait_loop].
  destruct (timeout_fires cfg (elapsed p)); [done|].
  destruct (time_sleep (poll_interval cfg)); [|done].
  destruct (sweep cfg (fetch p) 0 (session_ids w) w agg)
    as [tr [wa agga|wa agga|b wa agga|e]]; try done.
  all: destruct (wait_loop cfg rest wa agga) as [tr' o] eqn:Hrest;
    intros [= <- ->]; rewrite (IH _ _ _ _ _ Hrest);
    destruct (wait_loop cfg s2 w1 agg1) as [tr2 o2];
    cbn [app]; by rewrite <- app_assoc.
Qed.

(** X2. A session taken out of [remaining] is never put back. Take the
    wait at two moments, after the turns [s1] and after the further turns
    [s2], still polling at both: the sessions tracked are at both moments
    the ones the waiter was given, [remaining] is at the first moment a
    sub-list of them, and at the second moment a sub-list of what it was
    at the first, in the same order, whatever the polls in between
    show. *)
Theorem wait_remaining_shrinks (cfg : Config) (ids : list string)
    (s1 s2 : list poll) (w1 w2 : SessionWaiter) (agg1 agg2 : aggregate) :
  (wait cfg ids s1).2 = Polling w1 agg1 ->
  (wait cfg ids (s1 ++ s2)%list).2 = Polling w2 agg2 ->
  session_ids w1 = ids
  /\ remaining w1 `sublist_of` ids
  /\ session_ids w2 = ids
  /\ remaining w2 `sublist_of` remaining w1.
Proof.
  unfold wait. intros H1 H2.
  destruct (wait_loop_shrinks cfg s1 (new_waiter ids) [] w1 agg1 H1)
    as [Hids1 Hrem1].
  destruct (wait_loop cfg s1 (new_waiter ids) []) as [tr1 o1] eqn:E1.
  cbn [snd] in H1. subst o1.
  rewrite (wait_loop_app cfg s1 s2 _ _ _ _ _ E1) in H2.
  destruct (wait_loop_shrinks cfg s2 w1 agg1 w2 agg2) as [Hids2 Hrem2].
  { by destruct (wait_loop cfg s2 w1 agg1). }
  change (session_ids (new_waiter ids)) with ids in Hids1.
  change (remaining (new_waiter ids)) with ids in Hrem1.
  split; [done|]. split; [done|]. split; [congruence|done].
Qed.

Lemma wait_remaining_shrinks_witness :
  exists w1 agg1 w2 agg2,
    (wait default_config ["a"; "b"] [done_and_running; done_and_running]).2
    = Polling w1 agg1
    /\ remaining w1 = ["b"]
    /\ (wait default_config ["a"; "b"]
          ([done_and_running; done_and_running] ++ [all_running])%list).2
       = Polling w2 agg2
    /\ session_ids w1 = ["a"; "b"]
    /\ remaining w1 `sublist_of` ["a"; "b"]
    /\ session_ids w2 = ["a"; "b"]
    /\ remaining w2 `sublist_of` remaining w1.
Proof.
  eexists _, _, _, _.
  split; [reflexivity|]. split; [reflexivity|]. split; [reflexivity|].
  eapply (wait_remaining_shrinks default_config ["a"; "b"]
            [done_and_running; done_and_running] [all_running]);
    reflexivity.
Defined.

(** X3. A sweep ends with the verdict [True] only when no session is left
    in [remaining]. *)
Theorem sweep_success_nothing_remains (cfg : Config) (f : nat -> exchange)
    (todo : list string) (i : nat) (w : SessionWaiter) (agg : aggregate)
    (tr : list event) (w' : SessionWaiter) (agg' : aggregate) :
  sweep cfg f i todo w agg = (tr, Halt true w' agg') ->
  remaining w' = [].
Proof.
  revert i w agg tr. induction todo as [|sid todo IH]; intros i w agg tr; [done|].
  cbn [sweep].
  destruct (poll_session_keeps cfg sid (f i) w agg _ eq_refl) as [_ He].
  destruct (poll_session cfg sid (f i) w agg) as [w1 agg1|w1 agg1|b w1 agg1|e];
    try done.
  - destruct (sweep cfg f (S i) todo w1 agg1) as [tr' r'] eqn:Hrest.
    intros [= <- ->]. by eapply IH.
  - intros [= <- -> -> ->]. by eapply He.
Qed.

Lemma sweep_success_nothing_remains_witness :
  remaining
    (set_remaining []
       (set_final_state "s" true
          (set_name "s" (PStr "s")
             (set_final_state "s" false
                (set_completed_last_check "s" true
                   (set_name "s" (PStr "s") (new_waiter ["s"]))))))) = [].
Proof.
  apply (sweep_success_nothing_remains default_config (fetch failed_twice_idle)
           ["s"] 0
           (set_final_state "s" false
              (set_completed_last_check "s" true
                 (set_name "s" (PStr "s") (new_waiter ["s"])))) []
           [EvFetch "s"] _
           [("s", [("session_status", PStr "failed"); ("running", PInt 0);
                   ("waiting", PInt 0)])]).
  reflexivity.
Defined.

Section FirstSweep.

Variable cfg : Config.

Lemma flag_lookup_false (d : gmap string bool) sid b :
  (forall s, flag d s = false) -> b = false -> forall s, flag (<[sid := b]> d) s = false.
Proof.
  intros Hd -> s. destruct (decide (sid = s)) as [->|Hne].
  - apply flag_insert_eq.
  - by rewrite flag_insert_ne.
Qed.

(** A session not yet seen with zero counts is not confirmed by its next
    observation, and this keeps the other sessions as they are. *)
Lemma poll_session_unconfirmed sid todo x w agg :
  sid ∉ todo ->
  unconfirmed (sid :: todo) w ->
  match poll_session cfg sid x w agg with
  | Next w' _ | Break w' _ => unconfirmed todo w'
  | Halt success _ _ => success = false
  | Fault _ => True
  end.
Proof.
  intros Hnot (Hrem & Hfin & Hclc).
  assert (Hrest : unconfirmed todo w).
  { repeat split; try done. intros s Hs. apply Hclc. by apply elem_of_cons; right. }
  unfold poll_session.
  destruct (get_session_status x) as [info|[code msg|]]; try done.
  destruct (py_truthy info); cbn [negb]; [|done].
  destruct info as [| | | | | |d]; try done.
  unfold examine.
  set (state := dict_get d "session_status" (PStr "unknown")).
  set (w0 := set_name sid (dict_get d "name" (PStr sid)) w).
  assert (Hsid : flag (completed_last_check w0) sid = false)
    by (apply Hclc; by apply elem_of_cons; left).
  unfold rerun_check. rewrite Hsid.
  set (w1 := if py_eq_zero (dict_get d "running" (PInt 0))
                && py_eq_zero (dict_get d "waiting" (PInt 0))
             then set_final_state sid false (set_completed_last_check sid true w0)
             else set_final_state sid false (set_completed_last_check sid false w0)).
  assert (Hw1 : unconfirmed todo w1 /\ remaining w1 = remaining w).
  { subst w1.
    destruct (py_eq_zero _ && py_eq_zero _); (split; [|done]);
      (split; [done|split]); cbn.
    1,3: by apply flag_lookup_false.
    all: intros s Hs; rewrite flag_insert_ne; [|by intros ->];
      apply Hclc; by apply elem_of_cons; right. }
  destruct Hw1 as [Hun1 Hrem1].
  assert (Hstep : (if py_eq_zero (dict_get d "running" (PInt 0))
                      && py_eq_zero (dict_get d "waiting" (PInt 0))
                   then (set_final_state sid false
                           (set_completed_last_check sid true w0), false)
                   else (set_final_state sid false
                           (set_completed_last_check sid false w0), false))
                  = (w1, false))
    by (subst w1; by destruct (py_eq_zero _ && py_eq_zero _)).
  rewrite Hstep. cbn [andb].
  unfold apply_resolver.
  destruct (_get_resolver cfg state) as [resolver|e]; [|done].
  assert (Hdone : _check_all_done w1 sid = (w1, false)).
  { unfold _check_all_done. destruct Hun1 as (Hr & Hf & _). rewrite Hf.
    f_equal. destruct (remaining w1); done. }
  rewrite Hdone.
  by destruct (py_eq_str state "completed"), (String.eqb resolver "fail"),
       (String.eqb resolver "continue").
Qed.

Lemma sweep_unconfirmed f : forall todo i w agg,
  NoDup todo ->
  unconfirmed todo w ->
  match (sweep cfg f i todo w agg).2 with
  | Next w' _ | Break w' _ => unconfirmed [] w'
  | Halt success _ _ => success = false
  | Fault _ => True
  end.
Proof.
  induction todo as [|sid todo IH]; intros i w agg Hnd Hun; [done|].
  apply NoDup_cons in Hnd as [Hnot Hnd]. cbn [sweep].
  pose proof (poll_session_unconfirmed sid todo (f i) w agg Hnot Hun) as Hstep.
  destruct (poll_session cfg sid (f i) w agg) as [w1 agg1|w1 agg1|b w1 agg1|e];
    cbn [snd]; try done.
  - specialize (IH (S i) w1 agg1 Hnd Hstep).
    by destruct (sweep cfg f (S i) todo w1 agg1).
  - destruct Hstep as (? & ? & _). repeat split; try done.
    intros s Hs. inversion Hs.
Qed.

Lemma count_sleeps_app tr tr' :
  count_sleeps (tr ++ tr') = count_sleeps tr + count_sleeps tr'.
Proof. unfold count_sleeps. by rewrite List.filter_app, length_app. Qed.

(** A wait that returns has slept at least once. *)
Lemma wait_loop_returned_slept script w agg tr success agg' :
  wait_loop cfg script w agg = (tr, Returned success agg') ->
  1 <= count_sleeps tr.
Proof.
  destruct script as [|p rest]; [done|]. cbn [wait_loop].
  destruct (timeout_fires cfg (elapsed p)); [done|].
  destruct (time_sleep (poll_interval cfg)); [|done].
  destruct (sweep cfg (fetch p) 0 (session_ids w) w agg)
    as [tr0 [w1 agg1|w1 agg1|b w1 agg1|e]]; try done.
  1,2: destruct (wait_loop cfg rest w1 agg1) as [tr1 o].
  all: intros [= <- _]; cbn; lia.
Qed.

End FirstSweep.

(** X4. With distinct session ids, a wait that returns [True] has slept
    through two poll intervals at least: the first sweep never confirms a
    session, so success takes two polls whatever the server answers. *)
Theorem wait_success_takes_two_polls (cfg : Config) (ids : list string)
    (script : list poll) (tr : list event) (agg : aggregate) :
  NoDup ids ->
  ids <> [] ->
  wait cfg ids script = (tr, Returned true agg) ->
  2 <= count_sleeps tr.
Proof.
  intros Hnd Hne. unfold wait.
  destruct script as [|p rest]; [done|]. cbn [wait_loop].
  destruct (timeout_fires cfg (elapsed p)); [done|].
  destruct (time_sleep (poll_interval cfg)); [|done].
  assert (Hun : unconfirmed ids (new_waiter ids)) by done.
  pose proof (sweep_unconfirmed cfg (fetch p) ids 0 (new_waiter ids) [] Hnd Hun)
    as Hfirst.
  change (session_ids (new_waiter ids)) with ids.
  destruct (sweep cfg (fetch p) 0 ids (new_waiter ids) [])
    as [tr0 [w1 agg1|w1 agg1|b w1 agg1|e]]; cbn [snd] in Hfirst; try done.
  1,2: destruct (wait_loop cfg rest w1 agg1) as [tr1 o] eqn:Hrest;
    intros [= <- ->];
    pose proof (wait_loop_returned_slept cfg _ _ _ _ _ _ Hrest);
    change (EvSleep (poll_interval cfg) :: (tr0 ++ tr1)%list)
      with ([EvSleep (poll_interval cfg)] ++ (tr0 ++ tr1))%list;
    rewrite !count_sleeps_app; cbn; lia.
  intros [= _ ->]. done.
Qed.

Lemma wait_success_takes_two_polls_witness :
  2 <= count_sleeps [EvSleep 60; EvFetch "s"; EvSleep 60; EvFetch "s"].
Proof.
  apply (wait_success_takes_two_polls default_config ["s"] [idle; failed_twice_idle]
           _ [("s", [("session_status", PStr "failed"); ("running", PInt 0);
                     ("waiting", PInt 0)])]).
  - apply NoDup_singleton.
  - discriminate.
  - reflexivity.
Defined.

Lemma wait_loop_without_sessions (cfg : Config) (script : list poll) :
  forall w agg,
    session_ids w = [] ->
    (forall success agg', (wait_loop cfg script w agg).2 <> Returned success agg')
    /\ (forall sid, EvFetch sid ∉ (wait_loop cfg script w agg).1)
    /\ (forall e, (wait_loop cfg script w agg).2 = Raised e ->
                  time_sleep (poll_interval cfg) = Raise e).
Proof.
  induction script as [|p rest IH]; intros w agg Hids.
  - split; [done|]. split; [|done]. intros sid Hin. inversion Hin.
  - cbn [wait_loop].
    destruct (timeout_fires cfg (elapsed p)).
    { split; [done|]. split; [|done]. intros sid Hin. inversion Hin. }
    destruct (time_sleep (poll_interval cfg)) as [[]|e0] eqn:Hsleep; cycle 1.
    { split; [done|]. split; [intros sid Hin; inversion Hin|].
      cbn. by intros e [= <-]. }
    rewrite Hids. cbn [sweep].
    destruct (IH w agg Hids) as (Hret & Hfetch & Hraise).
    destruct (wait_loop cfg rest w agg) as [tr o]. cbn [fst snd app] in *.
    split; [done|]. split; [|done]. intros sid Hin.
    apply elem_of_cons in Hin as [Hin|Hin]; [done|]. by eapply Hfetch.
Qed.

(** X5. With no session to track, [wait] never returns, neither [True]
    nor [False], and nothing is fetched; when it raises, the exception is
    the one of [time.sleep] for the poll interval. Only the timeout or a
    failing sleep ends it. *)
Theorem wait_without_sessions (cfg : Config) (script : list poll) :
  (forall success agg, (wait cfg [] script).2 <> Returned success agg)
  /\ (forall sid, EvFetch sid ∉ (wait cfg [] script).1)
  /\ (forall e, (wait cfg [] script).2 = Raised e ->
                time_sleep (poll_interval cfg) = Raise e).
Proof. by apply wait_loop_without_sessions. Qed.

Section Unreachable.

Variable cfg : Config.


End Unreachable.



Lemma get_resolver_completed (cfg : Config) state resolver :
  _get_resolver cfg state = Ok resolver ->
  py_eq_str state "completed" = true ->
  resolver = "continue".
Proof.
  destruct state as [| | | |s| |]; try done. cbn [py_eq_str].
  intros Hres Hs. apply String.eqb_eq in Hs as ->. cbn in Hres. congruence.
Qed.

(** X7. A session whose state resolves to neither [fail] nor [continue]
    brings no verdict: its record is stored, the sweep goes on with the
    next session and [remaining] is untouched. This is so for every state
    outside the six names of the resolver table ([running], [waiting],
    a missing status read as [unknown]), which resolves to [ignore], and
    for a configured action that is spelt differently. The state [failed]
    is set apart, for its special case. *)
Theorem ignored_state_no_verdict (cfg : Config) (sid : string) (x : exchange)
    (w : SessionWaiter) (agg : aggregate) (info : pydict) (resolver : string) :
  let state := dict_get info "session_status" (PStr "unknown") in
  get_session_status x = Got (PDict info) ->
  info <> [] ->
  _get_resolver cfg state = Ok resolver ->
  resolver <> "fail" ->
  resolver <> "continue" ->
  py_eq_str state "failed" = false ->
  (exists w', poll_session cfg sid x w agg = Next w' (dict_set agg sid info)
              /\ remaining w' = remaining w)
  /\ (forall s, s ∉ ["inaccessible"; "stopped"; "failed"; "done"; "suspended";
                     "completed"] ->
                _get_resolver cfg (PStr s) = Ok "ignore").
Proof.
  intros state Hget Hinfo Hres Hfail Hcont Hfailed. split.
  - rewrite (poll_session_record cfg _ _ info) by done.
    destruct (examine_unfold cfg sid info w agg) as (w1 & Hrem & _ & Hex).
    cbn zeta in Hex. fold state in Hex. rewrite Hfailed, andb_false_r in Hex.
    exists w1. split; [|done]. rewrite Hex. unfold apply_resolver. rewrite Hres.
    destruct (py_eq_str state "completed") eqn:Hc.
    { by pose proof (get_resolver_completed cfg _ _ Hres Hc). }
    apply String.eqb_neq in Hfail, Hcont. by rewrite Hfail, Hcont.
  - intros s Hs. unfold _get_resolver, dict_get. cbn [dict_lookup].
    repeat match goal with
           | |- context [String.eqb ?k s] =>
               destruct (String.eqb_spec k s) as [<-|_];
               [exfalso; apply Hs; set_solver|]
           end.
    done.
Qed.

Lemma ignored_state_no_verdict_witness :
  exists w',
    poll_session default_config "s" (status_record "running" 3 1)
      (new_waiter ["s"]) []
    = Next w' [("s", [("session_status", PStr "running"); ("running", PInt 3);
                      ("waiting", PInt 1)])]
    /\ remaining w' = ["s"].
Proof.
  apply (ignored_state_no_verdict default_config "s" (status_record "running" 3 1)
           (new_waiter ["s"]) []
           [("session_status", PStr "running"); ("running", PInt 3);
            ("waiting", PInt 1)] "ignore"); try done.
Defined.

(** X8. The loop body sets the verdict [False] for two reasons only: the
    status record fetched is empty (the session is gone), or the state of
    the session resolves to [fail]. No other answer of the server, and no
    failure to fetch, makes the wait return [False]. *)
Theorem false_verdict_causes (cfg : Config) (sid : string) (x : exchange)
    (w w' : SessionWaiter) (agg agg' : aggregate) :
  poll_session cfg sid x w agg = Halt false w' agg' ->
  (exists info, get_session_status x = Got info /\ py_truthy info = false)
  \/ (exists info, get_session_status x = Got (PDict info)
                   /\ _get_resolver cfg
                        (dict_get info "session_status" (PStr "unknown"))
                      = Ok "fail").
Proof.
  unfold poll_session.
  destruct (get_session_status x) as [info|[code msg|]]; try done.
  destruct (py_truthy info) eqn:Htruthy; cbn [negb]; [|intros _; left; eauto].
  destruct info as [| | | | | |d]; try done.
  intros Hhalt. right. exists d. split; [done|].
  destruct (examine_unfold cfg sid d w agg) as (w1 & _ & _ & Hex).
  cbn zeta in Hex. rewrite Hex in Hhalt. clear Hex.
  set (state := dict_get d "session_status" (PStr "unknown")) in *.
  assert (Hres : forall w2,
             apply_resolver cfg sid state w2 (dict_set agg sid d) = Halt false w' agg' ->
             _get_resolver cfg state = Ok "fail").
  { intros w2 Hr. destruct (_get_resolver cfg state) as [resolver|e] eqn:E.
    - destruct (String.eqb_spec resolver "fail") as [->|Hne]; [done|].
      by pose proof (apply_resolver_never_fails cfg _ _ _ _ _ E Hne _ _ _ Hr).
    - unfold apply_resolver in Hr. by rewrite E in Hr. }
  destruct (confirms d w sid && py_eq_str state "failed");
    [destruct (last_remaining sid (remaining w)); [done|]|]; by eapply Hres.
Qed.

Lemma false_verdict_causes_witness :
  (exists info, get_session_status deleted = Got info /\ py_truthy info = false)
  \/ (exists info, get_session_status deleted = Got (PDict info)
                   /\ _get_resolver default_config
                        (dict_get info "session_status" (PStr "unknown"))
                      = Ok "fail").
Proof.
  apply (false_verdict_causes default_config "s" deleted (new_waiter ["s"])
           (new_waiter ["s"]) [] []).
  reflexivity.
Defined.

(** * Lists given as text *)

Section Strings.

Lemma append_cons c a b : String c a +:+ b = String c (a +:+ b).
Proof. reflexivity. Qed.

Lemma append_nil_r a : a +:+ EmptyString = a.
Proof.
  induction a as [|c a IH]; [done|]. by rewrite append_cons, IH.
Qed.

Lemma rev_app_append s : forall acc,
  String.rev_app s acc = String.rev_app s EmptyString +:+ acc.
Proof.
  induction s as [|c s IH]; intros acc; [done|].
  cbn [String.rev_app]. rewrite (IH (String c acc)), (IH (String c EmptyString)).
  by rewrite append_assoc.
Qed.

Lemma rev_cons c s : String.rev (String c s) = String.rev s +:+ String c EmptyString.
Proof. unfold String.rev. cbn [String.rev_app]. apply rev_app_append. Qed.

Lemma rev_append a b : String.rev (a +:+ b) = String.rev b +:+ String.rev a.
Proof.
  induction a as [|c a IH].
  - change (EmptyString +:+ b) with b. by rewrite append_nil_r.
  - rewrite append_cons, !rev_cons, IH. by rewrite append_assoc.
Qed.

Lemma rev_involutive s : String.rev (String.rev s) = s.
Proof.
  induction s as [|c s IH]; [done|].
  by rewrite rev_cons, rev_append, IH.
Qed.

Lemma append_empty a b : a +:+ b = EmptyString -> a = EmptyString /\ b = EmptyString.
Proof. destruct a; [done|]. by rewrite append_cons. Qed.

Lemma rev_empty s : String.rev s = EmptyString -> s = EmptyString.
Proof.
  destruct s as [|c s]; [done|]. rewrite rev_cons. intros H.
  by apply append_empty in H as [_ ?].
Qed.

Lemma lstrip_app_char a c :
  lstrip (a +:+ String c EmptyString)
  = match lstrip a with
    | EmptyString => if py_isspace c then EmptyString else String c EmptyString
    | t => t +:+ String c EmptyString
    end.
Proof.
  induction a as [|x a IH]; [done|].
  rewrite append_cons. cbn [lstrip]. by destruct (py_isspace x).
Qed.

(** [rstrip], read from the left. *)
Lemma rstrip_cons c r :
  rstrip (String c r)
  = if String.eqb (rstrip r) EmptyString && py_isspace c then EmptyString
    else String c (rstrip r).
Proof.
  unfold rstrip. rewrite rev_cons, lstrip_app_char.
  destruct (lstrip (String.rev r)) as [|x t] eqn:E.
  - by destruct (py_isspace c).
  - rewrite rev_append. cbn [String.eqb].
    destruct (String.rev (String x t)) eqn:E'; [by apply rev_empty in E'|].
    done.
Qed.

Lemma lstrip_starts_clean s : starts_clean (lstrip s) = true.
Proof.
  induction s as [|c s IH]; [done|]. cbn [lstrip].
  destruct (py_isspace c) eqn:E; [done|]. cbn. by rewrite E.
Qed.

Lemma lstrip_clean s : starts_clean s = true -> lstrip s = s.
Proof. destruct s as [|c s]; [done|]. cbn. by destruct (py_isspace c). Qed.

Lemma rstrip_starts_clean s : starts_clean s = true -> starts_clean (rstrip s) = true.
Proof.
  destruct s as [|c s]; [done|]. cbn [starts_clean]. intros Hc.
  rewrite rstrip_cons. apply negb_true_iff in Hc. rewrite Hc, andb_false_r.
  cbn. by rewrite Hc.
Qed.

Lemma rstrip_idempotent s : rstrip (rstrip s) = rstrip s.
Proof.
  induction s as [|c s IH]; [done|]. rewrite rstrip_cons.
  destruct (String.eqb_spec (rstrip s) EmptyString) as [He|Hne]; cbn [andb].
  - destruct (py_isspace c) eqn:Hc; [done|].
    rewrite rstrip_cons, IH, He. cbn. by rewrite Hc.
  - rewrite rstrip_cons, IH.
    destruct (String.eqb_spec (rstrip s) EmptyString); done.
Qed.

Lemma strip_starts_clean s : starts_clean (strip s) = true.
Proof. apply rstrip_starts_clean, lstrip_starts_clean. Qed.

(** Stripping a stripped string changes nothing. *)
Lemma strip_idempotent s : strip (strip s) = strip s.
Proof.
  unfold strip at 1. rewrite (lstrip_clean (strip s)).
  - apply rstrip_idempotent.
  - apply strip_starts_clean.
Qed.

Lemma lstrip_contains x s : contains_char x (lstrip s) = true -> contains_char x s = true.
Proof.
  induction s as [|c s IH]; [done|]. cbn [lstrip].
  destruct (py_isspace c); [|done].
  intros H. cbn. rewrite (IH H). apply orb_true_r.
Qed.

Lemma rstrip_contains x s : contains_char x (rstrip s) = true -> contains_char x s = true.
Proof.
  induction s as [|c s IH]; [done|]. rewrite rstrip_cons.
  destruct (String.eqb (rstrip s) EmptyString && py_isspace c); [done|].
  cbn. intros H. apply orb_prop in H as [->|H]; [done|].
  rewrite (IH H). apply orb_true_r.
Qed.

Lemma strip_contains x s : contains_char x (strip s) = true -> contains_char x s = true.
Proof. intros H. by apply lstrip_contains, rstrip_contains. Qed.

Lemma split_on_nonempty sep s : split_on sep s <> [].
Proof.
  destruct s as [|c s]; [done|]. cbn.
  destruct (Ascii.eqb c sep); [done|]. by destruct (split_on sep s).
Qed.

(** No piece of a split holds the separator. *)
Lemma split_on_pieces sep s :
  Forall (fun piece => contains_char sep piece = false) (split_on sep s).
Proof.
  induction s as [|c s IH]; [by repeat constructor|]. cbn.
  destruct (Ascii.eqb c sep) eqn:E; [by constructor|].
  destruct (split_on sep s) as [|first others].
  { constructor; [|constructor]. cbn. by rewrite E. }
  inversion IH as [|? ? Hfirst Hothers]; subst. constructor; [|done].
  cbn. by rewrite E.
Qed.

(** Joining the pieces of a split with the separator gives the text back. *)
Lemma join_split_on sep s :
  join (String sep EmptyString) (split_on sep s) = s.
Proof.
  induction s as [|c s IH]; [done|]. cbn [split_on].
  pose proof (split_on_nonempty sep s) as Hne.
  destruct (Ascii.eqb_spec c sep) as [->|Hc].
  - destruct (split_on sep s) as [|first others]; [done|].
    cbn [join] in *. by rewrite <- IH.
  - destruct (split_on sep s) as [|first others]; [done|].
    destruct others as [|second others]; cbn [join] in *; by rewrite <- IH.
Qed.

End Strings.

Lemma stripped_nonempty_elem (items : list string) (e : string) :
  e ∈ stripped_nonempty items <->
  exists v, v ∈ items /\ e = strip v /\ e <> EmptyString.
Proof.
  unfold stripped_nonempty. rewrite list_elem_of_In, in_map_iff. split.
  - intros (v & <- & Hin). apply filter_In in Hin as [Hin Hne].
    exists v. split; [by apply list_elem_of_In|]. split; [done|].
    apply negb_true_iff in Hne. by apply String.eqb_neq.
  - intros (v & Hin & -> & Hne). exists v. split; [done|].
    apply filter_In. split; [by apply list_elem_of_In|].
    apply negb_true_iff. by apply String.eqb_neq.
Qed.

Lemma split_on_elem_clean sep s piece :
  piece ∈ split_on sep s -> contains_char sep piece = false.
Proof.
  intros Hin. pose proof (split_on_pieces sep s) as Hall.
  rewrite Forall_forall in Hall. by apply Hall.
Qed.

Lemma strip_keeps_clean x s : contains_char x s = false -> contains_char x (strip s) = false.
Proof.
  intros Hs. destruct (contains_char x (strip s)) eqn:E; [|done].
  apply strip_contains in E. congruence.
Qed.

Lemma stripped_split_items (sep : ascii) (text e : string) :
  e ∈ stripped_nonempty (split_on sep text) ->
  e <> EmptyString /\ strip e = e /\ contains_char sep e = false.
Proof.
  intros Hin. apply stripped_nonempty_elem in Hin as (v & Hv & -> & Hne).
  split; [done|]. split; [apply strip_idempotent|].
  apply strip_keeps_clean. by eapply split_on_elem_clean.
Qed.

Lemma extra_list_items (text e : string) :
  e ∈ extra_list text ->
  e <> EmptyString /\ strip e = e /\ contains_char "," e = false.
Proof.
  unfold extra_list. destruct (String.eqb text EmptyString).
  - intros Hin. inversion Hin.
  - apply stripped_split_items.
Qed.

(** X9. The names [main] reads from the comma-separated
    [extra_attributes] input, and the VSIF paths [run_launcher_mode] reads
    from the semicolon-separated [vsif_path] input, are never empty, have
    no white space around them and hold no separator. For such a name the
    report leaves out exactly the names with a space inside and the
    built-in field names. *)
Theorem text_lists_clean (text : string) (e : string) :
  (e ∈ extra_list text ->
     e <> EmptyString /\ strip e = e /\ contains_char "," e = false
     /\ omitted e = contains_char " " e || in_set e built_in)
  /\ (e ∈ static_vsif_files text ->
      e <> EmptyString /\ strip e = e /\ contains_char ";" e = false).
Proof.
  split.
  - intros Hin. destruct (extra_list_items _ _ Hin) as (Hne & Hstrip & Hsep).
    repeat split; try done. unfold omitted. rewrite Hstrip.
    apply String.eqb_neq in Hne. by rewrite Hne.
  - apply stripped_split_items.
Qed.

Lemma text_lists_clean_witness :
  extra_list " owner , ,cpu time,test_name," = ["owner"; "cpu time"; "test_name"]
  /\ omitted "cpu time" = contains_char " " "cpu time" || in_set "cpu time" built_in
  /\ strip "owner" = "owner".
Proof.
  assert (Hlist : extra_list " owner , ,cpu time,test_name,"
                  = ["owner"; "cpu time"; "test_name"]) by reflexivity.
  split; [exact Hlist|]. split.
  - destruct (text_lists_clean " owner , ,cpu time,test_name," "cpu time")
      as [Hx _].
    apply Hx. rewrite Hlist. apply list_elem_of_In. cbn. tauto.
  - destruct (text_lists_clean " owner , ,cpu time,test_name," "owner")
      as [Hx _].
    apply Hx. rewrite Hlist. apply list_elem_of_In. cbn. tauto.
Defined.

Section Canonical.

Lemma stripped_nonempty_fixed (l : list string) :
  Forall (fun e => e <> EmptyString /\ strip e = e) l -> stripped_nonempty l = l.
Proof.
  unfold stripped_nonempty. induction 1 as [|e l [Hne Hs] _ IH]; [done|].
  cbn [List.filter]. rewrite Hs. apply String.eqb_neq in Hne. rewrite Hne.
  cbn [negb map]. by rewrite Hs, IH.
Qed.

Lemma split_on_clean sep s : contains_char sep s = false -> split_on sep s = [s].
Proof.
  induction s as [|c s IH]; [done|]. cbn. intros H.
  apply orb_false_elim in H as [Hc Hs]. by rewrite Hc, (IH Hs).
Qed.

Lemma split_on_append sep a b :
  contains_char sep a = false ->
  split_on sep (a +:+ String sep b) = a :: split_on sep b.
Proof.
  induction a as [|c a IH]; intros Ha.
  - change (EmptyString +:+ String sep b) with (String sep b). cbn.
    by rewrite Ascii.eqb_refl.
  - cbn in Ha. apply orb_false_elim in Ha as [Hc Ha].
    rewrite append_cons. cbn [split_on]. by rewrite Hc, (IH Ha).
Qed.

Lemma split_on_join sep (l : list string) :
  l <> [] ->
  Forall (fun e => contains_char sep e = false) l ->
  split_on sep (join (String sep EmptyString) l) = l.
Proof.
  intros Hne Hall. induction Hall as [|e l He Hall IH]; [done|].
  destruct l as [|e' l].
  - cbn [join]. by apply split_on_clean.
  - cbn [join]. change (String sep EmptyString +:+ ?x) with (String sep x).
    rewrite split_on_append by done. f_equal. by apply IH.
Qed.

End Canonical.

(** X10. The list [main] reads from [extra_attributes] is canonical:
    written back with commas and read again, it is the same list. *)
Theorem extra_list_round_trip (text : string) :
  extra_list (join "," (extra_list text)) = extra_list text.
Proof.
  set (l := extra_list text).
  assert (Hall : Forall (fun e => e <> EmptyString /\ strip e = e
                                  /\ contains_char "," e = false) l).
  { apply Forall_forall. intros e He. by apply (extra_list_items text). }
  destruct l as [|e l'] eqn:El; [done|].
  unfold extra_list at 1.
  destruct (String.eqb_spec (join "," (e :: l')) EmptyString) as [Hj|_].
  { exfalso. inversion Hall as [|? ? (Hne & _) _]; subst.
    destruct l'; cbn [join] in Hj; [done|].
    by apply append_empty in Hj as [? _]. }
  rewrite split_on_join.
  - apply stripped_nonempty_fixed. eapply Forall_impl; [exact Hall|].
    by intros x (? & ? & _).
  - done.
  - eapply Forall_impl; [exact Hall|]. by intros x (_ & _ & ?).
Qed.

(** * The projection of [get_runs] *)

Lemma in_set_elem x (l : list string) : in_set x l = true <-> x ∈ l.
Proof. rewrite in_set_In. symmetry. apply list_elem_of_In. Qed.

Lemma extend_selection_spec (attrs : list string) : forall selection,
  NoDup selection ->
  NoDup (extend_selection attrs selection)
  /\ selection `prefix_of` extend_selection attrs selection
  /\ (forall x, x ∈ extend_selection attrs selection <->
                x ∈ selection
                \/ exists a, a ∈ attrs /\ x = strip a /\ x <> EmptyString).
Proof.
  induction attrs as [|attr rest IH]; intros selection Hnd.
  - cbn. split; [done|]. split; [done|]. intros x. split; [by left|].
    intros [?|(a & Ha & _)]; [done|inversion Ha].
  - cbn [extend_selection].
    destruct (String.eqb_spec (strip attr) EmptyString) as [He|Hne]; cbn [negb andb].
    + destruct (IH selection Hnd) as (Hnd' & Hpre & Hin).
      split; [done|]. split; [done|]. intros x. rewrite Hin. split.
      * intros [?|(a & Ha & ? & ?)]; [by left|right].
        exists a. split; [by apply elem_of_cons; right|done].
      * intros [?|(a & Ha & -> & Hx)]; [by left|].
        apply elem_of_cons in Ha as [->|Ha]; [done|]. right. by exists a.
    + destruct (in_set (strip attr) selection) eqn:Hmem; cbn [negb].
      * apply in_set_elem in Hmem.
        destruct (IH selection Hnd) as (Hnd' & Hpre & Hin).
        split; [done|]. split; [done|]. intros x. rewrite Hin. split.
        -- intros [?|(a & Ha & ? & ?)]; [by left|right].
           exists a. split; [by apply elem_of_cons; right|done].
        -- intros [?|(a & Ha & -> & Hx)]; [by left|].
           apply elem_of_cons in Ha as [->|Ha]; [by left|]. right. by exists a.
      * assert (Hnot : strip attr ∉ selection).
        { intros Hin. apply in_set_elem in Hin. congruence. }
        assert (Hnd1 : NoDup (selection ++ [strip attr])).
        { apply NoDup_app. split; [done|]. split; [|apply NoDup_singleton].
          intros x Hx Hx'. apply list_elem_of_singleton in Hx'. by subst. }
        destruct (IH _ Hnd1) as (Hnd' & Hpre & Hin).
        split; [done|]. split.
        { etrans; [|exact Hpre]. by apply prefix_app_r. }
        intros x. rewrite Hin, elem_of_app, list_elem_of_singleton. split.
        -- intros [[? | ->] | (a & Ha & ? & ?)].
           ++ by left.
           ++ right. exists attr. split; [by apply elem_of_cons; left|done].
           ++ right. exists a. split; [by apply elem_of_cons; right|done].
        -- intros [?|(a & Ha & -> & Hx)]; [by left; left|].
           apply elem_of_cons in Ha as [->|Ha]; [by left; right|].
           right. by exists a.
Qed.

(** X11. The projection [get_runs] sends never names an attribute twice.
    It starts with the eight fields the program always asks for, and
    holds besides exactly the trimmed, non-empty extra attribute names; so
    every attribute the report gives a block to has been asked for. *)
Theorem run_selection_distinct (extra_attrs : option (list string)) :
  NoDup (run_selection extra_attrs)
  /\ base_selection `prefix_of` run_selection extra_attrs
  /\ (forall x, x ∈ run_selection extra_attrs <->
                x ∈ base_selection
                \/ exists a, a ∈ default [] extra_attrs /\ x = strip a
                             /\ x <> EmptyString)
  /\ (forall a, a ∈ default [] extra_attrs -> omitted a = false ->
                strip a ∈ run_selection extra_attrs).
Proof.
  assert (Hbase : NoDup base_selection).
  { apply NoDup_ListNoDup. unfold base_selection.
    repeat (constructor; [cbn; intuition discriminate|]). constructor. }
  assert (Hmain : NoDup (run_selection extra_attrs)
                  /\ base_selection `prefix_of` run_selection extra_attrs
                  /\ (forall x, x ∈ run_selection extra_attrs <->
                                x ∈ base_selection
                                \/ exists a, a ∈ default [] extra_attrs
                                             /\ x = strip a /\ x <> EmptyString)).
  { destruct extra_attrs as [[|attr rest]|]; cbn [run_selection default].
    - split; [done|]. split; [done|]. intros x. split; [by left|].
      intros [?|(a & Ha & _)]; [done|inversion Ha].
    - by apply extend_selection_spec.
    - split; [done|]. split; [done|]. intros x. split; [by left|].
      intros [?|(a & Ha & _)]; [done|inversion Ha]. }
  destruct Hmain as (Hnd & Hpre & Hin). repeat split; try done; try apply Hin.
  intros a Ha Hom. apply Hin. right. exists a. split; [done|]. split; [done|].
  unfold omitted in Hom. apply orb_false_elim in Hom as [Hom _].
  apply orb_false_elim in Hom as [Hom _]. by apply String.eqb_neq.
Qed.

Lemma run_selection_distinct_witness :
  "owner" ∈ run_selection (Some [" owner "; "test_name"; "owner"; " "]).
Proof.
  replace "owner" with (strip " owner ") by reflexivity.
  apply (run_selection_distinct (Some [" owner "; "test_name"; "owner"; " "])).
  - apply list_elem_of_In. cbn. tauto.
  - reflexivity.
Defined.

(** * [get_runs] *)

Lemma collect_runs_spec (exchanges : list exchange) : forall all_runs,
  collect_runs exchanges all_runs
  = if existsb (fun x => match x with OtherFailure => true | _ => false end)
         exchanges
    then RunsRaised
    else Runs (all_runs ++ concat (map session_runs exchanges)).
Proof.
  induction exchanges as [|x rest IH]; intros all_runs.
  - cbn. by rewrite app_nil_r.
  - cbn [collect_runs existsb map concat]. unfold session_runs at 1.
    destruct x as [[|[| | | | |items|]|raw]|code msg|reason|];
      cbn [request orb]; try done; rewrite IH;
      (destruct (existsb _ rest); [done|]);
      by rewrite ?app_nil_l, ?app_assoc.
Qed.

(** X12. [get_runs] returns the runs of every session that answered with
    a list, in the order of the sessions: a session whose request ends in
    a [VAPIError] (HTTP error, server unreachable) or whose answer is no
    list brings no run and does not stop the others. Only an exception
    that is no [VAPIError] makes it raise. *)
Theorem get_runs_gathers (exchanges : list exchange) :
  (Forall (fun x => x <> OtherFailure) exchanges ->
     get_runs exchanges = Runs (concat (map session_runs exchanges)))
  /\ (get_runs exchanges = RunsRaised <-> OtherFailure ∈ exchanges)
  /\ (forall before after code msg,
        get_runs (before ++ HTTPError code msg :: after)
        = get_runs (before ++ after)).
Proof.
  unfold get_runs.
  assert (Hex : forall l,
             existsb (fun x => match x with OtherFailure => true | _ => false end) l
             = true <-> OtherFailure ∈ l).
  { intros l. rewrite existsb_exists. split.
    - intros (x & Hin & Hx). destruct x; try done. by apply list_elem_of_In.
    - intros Hin. exists OtherFailure. split; [by apply list_elem_of_In|done]. }
  split; [|split].
  - intros Hall. rewrite collect_runs_spec.
    destruct (existsb _ exchanges) eqn:E; [|done].
    apply Hex in E. rewrite Forall_forall in Hall. by destruct (Hall _ E).
  - rewrite collect_runs_spec, <- Hex. by destruct (existsb _ exchanges).
  - intros before after code msg. rewrite !collect_runs_spec.
    rewrite !existsb_app, !map_app, !concat_app. done.
Qed.

Lemma get_runs_gathers_witness :
  get_runs [Responded (BodyJson (PList [PInt 1; PInt 2]));
            URLError "unreachable";
            Responded (BodyJson (PList [PInt 3]))]
  = Runs [PInt 1; PInt 2; PInt 3].
Proof.
  apply (get_runs_gathers [Responded (BodyJson (PList [PInt 1; PInt 2]));
                           URLError "unreachable";
                           Responded (BodyJson (PList [PInt 3]))]).
  repeat constructor; discriminate.
Defined.

(** * [tobool] *)

Section Lower.

Lemma lower_char_idempotent c : py_lower_char (py_lower_char c) = py_lower_char c.
Proof. by destruct c as [[] [] [] [] [] [] [] []]. Qed.

Lemma lower_char_isspace c : py_isspace (py_lower_char c) = py_isspace c.
Proof. by destruct c as [[] [] [] [] [] [] [] []]. Qed.

Lemma lower_idempotent s : lower (lower s) = lower s.
Proof.
  induction s as [|c s IH]; [done|]. cbn. by rewrite lower_char_idempotent, IH.
Qed.

Lemma lower_empty s : String.eqb (lower s) EmptyString = String.eqb s EmptyString.
Proof. by destruct s. Qed.

Lemma lstrip_lower s : lstrip (lower s) = lower (lstrip s).
Proof.
  induction s as [|c s IH]; [done|]. cbn. rewrite lower_char_isspace.
  by destruct (py_isspace c).
Qed.

Lemma rstrip_lower s : rstrip (lower s) = lower (rstrip s).
Proof.
  induction s as [|c s IH]; [done|]. cbn [lower].
  rewrite !rstrip_cons, IH, lower_empty, lower_char_isspace.
  by destruct (String.eqb (rstrip s) EmptyString && py_isspace c).
Qed.

Lemma strip_lower s : strip (lower s) = lower (strip s).
Proof. unfold strip. by rewrite lstrip_lower, rstrip_lower. Qed.

End Lower.

(** X13. [tobool] reads its argument without regard to the case of the
    letters or to white space around it: trimming or lower-casing the
    argument beforehand changes nothing. An empty or blank argument is
    false. *)
Theorem tobool_insensitive (value : string) :
  tobool (strip value) = tobool value
  /\ tobool (lower value) = tobool value
  /\ (strip value = EmptyString -> tobool value = false).
Proof.
  unfold tobool. split; [|split].
  - by rewrite strip_idempotent.
  - by rewrite strip_lower, lower_idempotent.
  - by intros ->.
Qed.

Lemma tobool_insensitive_witness :
  tobool "   " = false /\ tobool "  YeS " = true.
Proof.
  split.
  - by apply (tobool_insensitive "   ").
  - reflexivity.
Defined.

(** * Escaped text *)

Section EscapedText.

Variable py_repr : pyval -> string.

Lemma prefix_empty t : String.prefix EmptyString t = true.
Proof. by destruct t. Qed.

Lemma subst_char_absent c new s :
  contains_char c s = false -> subst_char c new s = s.
Proof.
  induction s as [|x s IH]; [done|]. cbn. intros H.
  apply orb_false_elim in H as [Hx Hs]. by rewrite Hx, (IH Hs).
Qed.

Lemma prefix_subst_char c new name : forall s,
  contains_char c name = false ->
  String.prefix name s = true ->
  String.prefix name (subst_char c new s) = true.
Proof.
  induction name as [|a name IH]; intros s Hc Hp; [apply prefix_empty|].
  destruct s as [|x s]; [done|]. cbn in Hp, Hc.
  apply orb_false_elim in Hc as [Hac Hc].
  destruct (ascii_dec a x) as [<-|]; [|done].
  cbn [subst_char]. rewrite Hac. cbn.
  destruct (ascii_dec a a); [|done]. by apply IH.
Qed.

(** Replacing a character that is no ampersand and occurs in no entity
    name, by text that is itself escaped, keeps the ampersands escaped. *)
Lemma subst_char_escaped c new s :
  Ascii.eqb c "&" = false ->
  Forall (fun name => contains_char c name = false) entity_names ->
  (forall t, ampersands_escaped t = true -> ampersands_escaped (new +:+ t) = true) ->
  ampersands_escaped s = true ->
  ampersands_escaped (subst_char c new s) = true.
Proof.
  intros Hc Hnames Hnew. induction s as [|x s IH]; [done|].
  cbn [ampersands_escaped subst_char]. intros H.
  apply andb_prop in H as [Hx Hs].
  destruct (Ascii.eqb_spec x c) as [->|Hxc].
  - apply Hnew. by apply IH.
  - cbn [ampersands_escaped]. rewrite (IH Hs), andb_true_r.
    destruct (Ascii.eqb x "&"); [|done].
    apply existsb_exists in Hx as (name & Hin & Hp).
    apply existsb_exists. exists name. split; [done|].
    apply prefix_subst_char; [|done].
    rewrite Forall_forall in Hnames. apply Hnames. by apply list_elem_of_In.
Qed.

Lemma subst_ampersand_escaped s :
  ampersands_escaped (subst_char "&" "&amp;" s) = true.
Proof.
  induction s as [|x s IH]; [done|]. cbn [subst_char].
  destruct (Ascii.eqb_spec x "&") as [->|Hx].
  - change ("&amp;" +:+ ?t) with (String "&" (String "a" (String "m" (String "p"
             (String ";" t))))).
    cbn. rewrite prefix_empty. exact IH.
  - cbn [ampersands_escaped]. apply Ascii.eqb_neq in Hx. by rewrite Hx, IH.
Qed.

Lemma xml_escape_ampersands s :
  ampersands_escaped (xml_escape s [(dquote, "&quot;"); ("'", "&apos;")]) = true.
Proof.
  unfold xml_escape. cbn [fold_left fst snd]. unfold dquote.
  rewrite !replace_char.
  assert (Hnames : forall c, In c xml_special ->
             Forall (fun name => contains_char c name = false) entity_names).
  { intros c Hc. cbn in Hc.
    destruct Hc as [<-|[<-|[<-|[<-|[]]]]]; by repeat constructor. }
  repeat (apply subst_char_escaped;
          [done| apply Hnames; cbn; tauto | |]).
  5: apply subst_ampersand_escaped.
  all: intros t Ht;
    match goal with
    | |- ampersands_escaped (?lit +:+ t) = true =>
        let l := eval cbv in (list_ascii_of_string lit) in
        change (lit +:+ t) with (fold_right String t l)
    end; cbn; by rewrite prefix_empty.
Qed.

Lemma xml_escape_clean_text s :
  Forall (fun c => contains_char c s = false) xml_replaced ->
  xml_escape s [(dquote, "&quot;"); ("'", "&apos;")] = s.
Proof.
  intros Hall. unfold xml_escape. cbn [fold_left fst snd]. unfold dquote.
  rewrite !replace_char. rewrite Forall_forall in Hall.
  assert (Hin : forall c, In c xml_replaced -> contains_char c s = false)
    by (intros c Hc; apply Hall; by apply list_elem_of_In).
  rewrite (subst_char_absent "&" _ s) by (apply Hin; cbn; tauto).
  rewrite (subst_char_absent ">" _ s) by (apply Hin; cbn; tauto).
  rewrite (subst_char_absent "<" _ s) by (apply Hin; cbn; tauto).
  rewrite (subst_char_absent "034" _ s) by (apply Hin; cbn; tauto).
  apply subst_char_absent. apply Hin. cbn. tauto.
Qed.

End EscapedText.

(** X14. Whatever the value, the text [_xml_safe] returns can stand in an
    XML attribute or element: it holds no angle bracket, double quote or
    apostrophe, and each of its ampersands starts one of the entities
    amp, gt, lt, quot and apos. A string with none of those five
    characters comes back unchanged. *)
Theorem xml_safe_well_formed (py_repr : pyval -> string) (text : pyval) :
  Forall (fun c => contains_char c (_xml_safe py_repr text) = false) xml_special
  /\ ampersands_escaped (_xml_safe py_repr text) = true
  /\ (forall s, text = PStr s ->
        Forall (fun c => contains_char c s = false) xml_replaced ->
        _xml_safe py_repr text = s).
Proof.
  split; [|split].
  - apply Forall_forall. intros c Hc. apply list_elem_of_In in Hc.
    by apply xml_safe_clean.
  - destruct text; unfold _xml_safe; try apply xml_escape_ampersands. done.
  - intros s -> Hs. by apply xml_escape_clean_text.
Qed.

Lemma xml_safe_well_formed_witness :
  _xml_safe (fun _ => "?") (PStr "plain text 1.0") = "plain text 1.0"
  /\ _xml_safe (fun _ => "?") (PStr "a<b & 'c'") = "a&lt;b &amp; &apos;c&apos;".
Proof.
  split; [|reflexivity].
  apply (xml_safe_well_formed (fun _ => "?") (PStr "plain text 1.0"));
    [reflexivity|].
  by repeat constructor.
Defined.

(** * Totals as sums *)

Section Sums.

Lemma add_totals_zero t : add_totals t zero_totals = t.
Proof. destruct t. unfold add_totals. cbn. f_equal; lia. Qed.

Lemma add_totals_assoc t a b :
  add_totals (add_totals t a) b = add_totals t (add_totals a b).
Proof. unfold add_totals. cbn. f_equal; lia. Qed.

Lemma sum_infos_from (infos : list pydict) : forall t,
  sum_infos infos t
  = match sum_infos infos zero_totals with
    | Ok s => Ok (add_totals t s)
    | Raise e => Raise e
    end.
Proof.
  induction infos as [|info rest IH]; intros t.
  - cbn. by rewrite add_totals_zero.
  - cbn [sum_infos]. rewrite !add_info_contribution.
    destruct (contribution info) as [c|e]; [|done].
    rewrite (IH (add_totals t c)), (IH (add_totals zero_totals c)).
    destruct (sum_infos rest zero_totals) as [s|e]; [|done].
    f_equal. rewrite !add_totals_assoc. by f_equal.
Qed.

Lemma sum_infos_app (a b : list pydict) : forall t,
  sum_infos (a ++ b) t
  = match sum_infos a t with
    | Ok t' => sum_infos b t'
    | Raise e => Raise e
    end.
Proof.
  induction a as [|info a IH]; intros t; [done|].
  cbn. destruct (add_info t info); [apply IH|done].
Qed.

End Sums.

(** X15. The statistics are sums over the sessions: those of no record
    are all zero, those of one record are what its fields convert to, and
    those of two collections put together are the sums of their
    statistics, total by total. *)
Theorem get_aggregated_stats_additive (a b : aggregate) (sid : string)
    (info : pydict) :
  get_aggregated_stats [] = Ok zero_totals
  /\ get_aggregated_stats [(sid, info)] = contribution info
  /\ get_aggregated_stats (a ++ b)
     = ta ← get_aggregated_stats a; tb ← get_aggregated_stats b;
       Ok (add_totals ta tb).
Proof.
  split; [done|]. split.
  - unfold get_aggregated_stats. cbn. rewrite add_info_contribution.
    destruct (contribution info) as [c|e]; [|done].
    f_equal. destruct c. unfold add_totals. cbn. f_equal; lia.
  - unfold get_aggregated_stats, dict_values, mbind, result_bind.
    rewrite map_app, sum_infos_app.
    destruct (sum_infos (map snd a) zero_totals) as [ta|e]; [|done].
    apply sum_infos_from.
Qed.

(** * Launching sessions *)

Section Launch.

Variable py_repr : pyval -> string.




End Launch.



(** * The overall status *)

Section FinalStatus.

Lemma add_status_string statuses s :
  string_set statuses ->
  string_set (add_status statuses (PStr s))
  /\ (forall v, v ∈ add_status statuses (PStr s) <-> v ∈ statuses \/ v = PStr s).
Proof.
  intros [Hnd Hstr]. unfold add_status.
  assert (Hmem : existsb (py_same (PStr s)) statuses = true <-> PStr s ∈ statuses).
  { rewrite existsb_exists. split.
    - intros (v & Hin & Hv). apply list_elem_of_In in Hin.
      rewrite Forall_forall in Hstr. destruct (Hstr v Hin) as [t ->].
      cbn in Hv. apply String.eqb_eq in Hv. by subst.
    - intros Hin. exists (PStr s). split; [by apply list_elem_of_In|].
      cbn. apply String.eqb_refl. }
  destruct (existsb (py_same (PStr s)) statuses) eqn:E.
  - split; [done|]. intros v. split; [by left|].
    intros [?| ->]; [done|]. by apply Hmem.
  - assert (Hnot : PStr s ∉ statuses).
    { intros Hin. apply Hmem in Hin. congruence. }
    split; [split|].
    + apply NoDup_app. split; [done|]. split; [|apply NoDup_singleton].
      intros v Hv Hv'. apply list_elem_of_singleton in Hv'. by subst.
    + apply Forall_app. split; [done|]. constructor; [by exists s|constructor].
    + intros v. by rewrite elem_of_app, list_elem_of_singleton.
Qed.

Lemma collect_statuses_strings (infos : list pydict) : forall statuses,
  Forall (fun info => exists s, has_status s info) infos ->
  string_set statuses ->
  exists statuses',
    collect_statuses infos statuses = Ok statuses'
    /\ string_set statuses'
    /\ (forall v, v ∈ statuses' <->
                  v ∈ statuses \/ exists info s, info ∈ infos /\ has_status s info
                                                 /\ v = PStr s).
Proof.
  induction infos as [|info rest IH]; intros statuses Hall Hset.
  - exists statuses. split; [done|]. split; [done|]. intros v. split; [by left|].
    intros [?|(info & s & Hin & _)]; [done|inversion Hin].
  - inversion Hall as [|? ? [s Hs] Hrest]; subst. cbn [collect_statuses].
    unfold has_status in Hs. rewrite Hs. cbn [hashable].
    destruct (add_status_string statuses s Hset) as [Hset' Hin'].
    destruct (IH _ Hrest Hset') as (statuses' & Hrun & Hset'' & Hin'').
    exists statuses'. split; [done|]. split; [done|].
    intros v. rewrite Hin'', Hin'. split.
    + intros [[?| ->]|(info' & s' & Hi & Hh & ->)].
      * by left.
      * right. exists info, s. split; [by apply elem_of_cons; left|done].
      * right. exists info', s'. split; [by apply elem_of_cons; right|done].
    + intros [?|(info' & s' & Hi & Hh & ->)]; [by left; left|].
      apply elem_of_cons in Hi as [->|Hi].
      * left. right. unfold has_status in Hh. congruence.
      * right. by exists info', s'.
Qed.

End FinalStatus.

(** X17. When every session record carries a string as its status, the
    overall status is that string if all the records agree, [mixed] as
    soon as two of them differ, and [unknown] when there is no record. *)
Theorem final_status_summary (aggregated : aggregate) :
  Forall (fun info => exists s, has_status s info) (dict_values aggregated) ->
  (aggregated = [] -> final_status aggregated = Ok (PStr "unknown"))
  /\ (forall s, aggregated <> [] ->
        Forall (has_status s) (dict_values aggregated) ->
        final_status aggregated = Ok (PStr s))
  /\ (forall info1 info2 s1 s2,
        info1 ∈ dict_values aggregated -> info2 ∈ dict_values aggregated ->
        has_status s1 info1 -> has_status s2 info2 -> s1 <> s2 ->
        final_status aggregated = Ok (PStr "mixed")).
Proof.
  intros Hall.
  assert (Hempty : string_set []).
  { split; [apply NoDup_nil_2|constructor]. }
  destruct (collect_statuses_strings _ [] Hall Hempty)
    as (statuses & Hrun & [Hnd Hstr] & Hin).
  unfold final_status, mbind, result_bind. rewrite Hrun.
  split; [|split].
  - intros ->. cbn in Hrun. by injection Hrun as <-.
  - intros s Hne Hsame.
    assert (Hs : forall v, v ∈ statuses <-> v = PStr s).
    { intros v. rewrite Hin. split.
      - intros [Hv|(info & s' & Hi & Hh & ->)]; [inversion Hv|].
        rewrite Forall_forall in Hsame. specialize (Hsame _ Hi).
        unfold has_status in *. congruence.
      - intros ->. right. destruct aggregated as [|[sid info] rest]; [done|].
        exists info, s. split; [by apply elem_of_cons; left|].
        split; [|done]. by inversion Hsame. }
    destruct statuses as [|v [|v' rest]].
    + exfalso. assert (H : PStr s ∈ @nil pyval) by (by apply Hs). inversion H.
    + f_equal. apply Hs. by apply elem_of_cons; left.
    + exfalso. apply NoDup_cons in Hnd as [Hnot _]. apply Hnot.
      assert (v = PStr s) as -> by (apply Hs; by apply elem_of_cons; left).
      assert (v' = PStr s) as ->
        by (apply Hs; apply elem_of_cons; right; by apply elem_of_cons; left).
      by apply elem_of_cons; left.
  - intros info1 info2 s1 s2 Hi1 Hi2 Hh1 Hh2 Hne.
    assert (H1 : PStr s1 ∈ statuses) by (apply Hin; right; by exists info1, s1).
    assert (H2 : PStr s2 ∈ statuses) by (apply Hin; right; by exists info2, s2).
    destruct statuses as [|v [|v' rest]]; [inversion H1| |done].
    apply list_elem_of_singleton in H1, H2. congruence.
Qed.

Lemma final_status_summary_witness :
  final_status
    [("a", [("session_status", PStr "completed")]);
     ("b", [("session_status", PStr "failed")])]
  = Ok (PStr "mixed").
Proof.
  destruct (final_status_summary
              [("a", [("session_status", PStr "completed")]);
               ("b", [("session_status", PStr "failed")])]) as (_ & _ & Hmixed).
  - repeat constructor; by eexists.
  - apply (Hmixed [("session_status", PStr "completed")]
             [("session_status", PStr "failed")] "completed" "failed");
      try reflexivity; try discriminate;
      apply list_elem_of_In; cbn; tauto.
Defined.

(** * The report as a whole *)

Section ReportLines.

Variable py_repr : pyval -> string.



End ReportLines.



(** * The order of the fetches *)

(** X19. A sweep fetches the tracked sessions in the order of the list,
    each at most once: what it fetches is a beginning of the list, the
    whole of it when the sweep reaches its end with no verdict and no
    break, and at least its first session. *)
Theorem sweep_fetches_in_order (cfg : Config) (f : nat -> exchange)
    (todo : list string) (i : nat) (w : SessionWaiter) (agg : aggregate) :
  exists n,
    n <= length todo
    /\ (sweep cfg f i todo w agg).1 = map EvFetch (take n todo)
    /\ (forall w' agg', (sweep cfg f i todo w agg).2 = Next w' agg' ->
                        n = length todo)
    /\ (todo <> [] -> 1 <= n).
Proof.
  revert i w agg. induction todo as [|sid todo IH]; intros i w agg.
  - exists 0. by repeat split.
  - cbn [sweep].
    destruct (poll_session cfg sid (f i) w agg) as [w1 agg1|w1 agg1|b w1 agg1|e].
    + destruct (IH (S i) w1 agg1) as (n & Hn & Htr & Hnext & _).
      destruct (sweep cfg f (S i) todo w1 agg1) as [tr r]. cbn [fst snd] in *.
      exists (S n). cbn [length take map]. repeat split; try lia.
      * by rewrite Htr.
      * intros w' agg' Hr. f_equal. by eapply Hnext.
    + exists 1. cbn [length take map fst snd]. rewrite take_0.
      repeat split; try done; lia.
    + exists 1. cbn [length take map fst snd]. rewrite take_0.
      repeat split; try done; lia.
    + exists 1. cbn [length take map fst snd]. rewrite take_0.
      repeat split; try done; lia.
Qed.
